(** * kaizenflow: the shell scripts and the trading system report

    - [Shell] and [CheckCredentials] embed the credential check (AWS /
      gspread_pandas): a small fragment of bash is given an executable
      semantics (dynamic scoping of [local], [set -e], the exit status of
      [if], an [echo] that may fail to write) and the script is
      transcribed command by command.

    - [LintMd] embeds [dev_scripts/lint_md.sh] as a function of a monad
      that keeps the commands started so far.

    - [Bash] embeds the scripts that only start commands: the comparison
      of the dev scripts, the CMTask2692 and CmTask974 clean-ups, the
      launcher of the tiled backtest, [defi/devops/docker_bash.sh] and
      [devops/docker_build/install_os_packages.sh].  [wp], [disciplined]
      and [always] are the ways to speak about such a script.

    - [TradingSystemReport] embeds [get_balances] of the trading system
      report notebook.

    A script that reads its environment is modelled as bash runs it when
    started with its default options; [Shell.default_startup] says which
    environments leave them alone.

    The order processor, the portfolio, the DAG runner and the Sorrentum
    sandbox scripts are not part of the tree (only a recorded outcome and
    README transcripts are), so nothing here speaks of them.

    The models come first, the properties after them.  *)

From Stdlib Require Import ZArith Lia Ascii String.
From stdpp Require Import base gmap strings list pretty.

#[local] Set Warnings "-register-all".

Local Open Scope Z_scope.
Local Open Scope string_scope.
Local Open Scope list_scope.

(** ** A fragment of bash *)

Module Shell.

(** A word is what stands between double quotes in the scripts: literal
    text and parameter expansions ([$x], [${x}]).  Nothing in a quoted
    word is split or globbed. *)
Inductive part :=
| Lit (s : string)
| Var (x : string).

Definition word := list part.

(** [[ ... ]] expressions: only [-e] and [!] occur. *)
Inductive test :=
| TExists (w : word)
| TNot (t : test).

Inductive cmd :=
| CSet_e                                   (* set -e *)
| CAssign (x : string) (w : word)          (* x="w" *)
| CLocal (x : string) (w : word)           (* local x="w" *)
| CFun (f : string) (body : list cmd)      (* f() { body } *)
| CIf (c : test) (body : list cmd)         (* if [ c ]; then body; fi *)
| CEcho_e (w : word)                       (* echo -e "w" *)
| CCall (f : string).                      (* f *)

(** The shell state.  [frames] are the [local] scopes of the function
    calls in progress, innermost first; [globals] holds the inherited
    environment and every variable assigned outside a [local].  The
    variables bash keeps for itself ([SHLVL], [PWD], [_], [BASH_VERSION]
    and the like) are not followed: [globals] speaks for the names a script
    reads or assigns, and no script here reads one of those.  [echoed]
    keeps the argument of every [echo -e] that could write, as the shell
    hands it over (the escapes in it are for [echo] to interpret), and
    [probed] the path of every [-e] test, both oldest first. *)
Record state := State {
  globals : gmap string string;
  frames : list (gmap string string);
  funs : gmap string (list cmd);
  errexit : bool;
  status : Z;
  echoed : list string;
  probed : list string
}.

(** The variables through which an environment changes how bash itself
    starts: shell options ([SHELLOPTS], [BASHOPTS]), a file read before the
    script ([BASH_ENV], [ENV]), posix mode and the compatibility level, the
    prompt of [set -x], which is expanded before every traced command, the
    names pathname expansion skips, and exported functions
    ([BASH_FUNC_name%%]), which take the place of a builtin such as
    [echo]. *)
Definition startup_variables : list string :=
  ["SHELLOPTS"; "BASHOPTS"; "BASH_ENV"; "ENV"; "POSIXLY_CORRECT";
   "BASH_COMPAT"; "PS4"; "GLOBIGNORE"].

Definition startup_variable (name : string) : bool :=
  bool_decide (name ∈ startup_variables) || String.prefix "BASH_FUNC_" name.

(** An environment that leaves bash with its default options and
    builtins. *)
Definition default_startup (environ : gmap string string) : Prop :=
  forall name, startup_variable name = true -> environ !! name = None.

(** The state of a shell started with its default options ([errexit] and
    [nounset] off) in an environment for which [default_startup] holds;
    what bash does in another environment is not modelled. *)
Definition initial (environ : gmap string string) : state :=
  {| globals := environ; frames := []; funs := ∅; errexit := false;
     status := 0; echoed := []; probed := [] |}.

Definition with_status (n : Z) (σ : state) : state :=
  {| globals := globals σ; frames := frames σ; funs := funs σ;
     errexit := errexit σ; status := n; echoed := echoed σ;
     probed := probed σ |}.

Definition with_errexit (b : bool) (σ : state) : state :=
  {| globals := globals σ; frames := frames σ; funs := funs σ;
     errexit := b; status := status σ; echoed := echoed σ;
     probed := probed σ |}.

Definition with_vars (g : gmap string string)
    (fs : list (gmap string string)) (σ : state) : state :=
  {| globals := g; frames := fs; funs := funs σ;
     errexit := errexit σ; status := status σ; echoed := echoed σ;
     probed := probed σ |}.

Definition with_fun (f : string) (body : list cmd) (σ : state) : state :=
  {| globals := globals σ; frames := frames σ; funs := <[f := body]> (funs σ);
     errexit := errexit σ; status := status σ; echoed := echoed σ;
     probed := probed σ |}.

Definition echo (s : string) (σ : state) : state :=
  {| globals := globals σ; frames := frames σ; funs := funs σ;
     errexit := errexit σ; status := status σ; echoed := echoed σ ++ [s];
     probed := probed σ |}.

Definition probe (p : string) (σ : state) : state :=
  {| globals := globals σ; frames := frames σ; funs := funs σ;
     errexit := errexit σ; status := status σ; echoed := echoed σ;
     probed := probed σ ++ [p] |}.

Definition echo_all (l : list string) (σ : state) : state :=
  {| globals := globals σ; frames := frames σ; funs := funs σ;
     errexit := errexit σ; status := status σ; echoed := echoed σ ++ l;
     probed := probed σ |}.

(** Variables are dynamically scoped: the innermost frame that binds the
    name wins, then the globals. *)
Fixpoint lookup_frames (fs : list (gmap string string)) (x : string)
    : option string :=
  match fs with
  | [] => None
  | f :: fs' =>
      match f !! x with
      | Some v => Some v
      | None => lookup_frames fs' x
      end
  end.

Definition get_var (σ : state) (x : string) : option string :=
  match lookup_frames (frames σ) x with
  | Some v => Some v
  | None => globals σ !! x
  end.

(** No script here sets [nounset], and the default leaves it off: an
    unset parameter expands to the empty string. *)
Definition expand_part (σ : state) (p : part) : string :=
  match p with
  | Lit s => s
  | Var x => default "" (get_var σ x)
  end.

Fixpoint expand (σ : state) (w : word) : string :=
  match w with
  | [] => ""
  | [p] => expand_part σ p
  | p :: w' => expand_part σ p +:+ expand σ w'
  end.

(** A plain assignment writes the innermost frame that already binds the
    name, otherwise the global scope. *)
Fixpoint assign_frames (fs : list (gmap string string)) (x v : string)
    : option (list (gmap string string)) :=
  match fs with
  | [] => None
  | f :: fs' =>
      match f !! x with
      | Some _ => Some (<[x := v]> f :: fs')
      | None => cons f <$> assign_frames fs' x v
      end
  end.

Definition assign (x v : string) (σ : state) : state :=
  match assign_frames (frames σ) x v with
  | Some fs => with_vars (globals σ) fs σ
  | None => with_vars (<[x := v]> (globals σ)) (frames σ) σ
  end.

(** [local] outside a function is an error (status 1). *)
Definition declare_local (x v : string) (σ : state) : state :=
  match frames σ with
  | [] => with_status 1 σ
  | f :: fs => with_status 0 (with_vars (globals σ) (<[x := v]> f :: fs) σ)
  end.

Definition push_frame (σ : state) : state :=
  with_vars (globals σ) (∅ :: frames σ) σ.

Definition pop_frame (σ : state) : state :=
  with_vars (globals σ) (tail (frames σ)) σ.

(** Standard output that takes whatever [echo] is handed. *)
Definition writable (write : list string -> string -> bool) : Prop :=
  forall out line, write out line = true.

Section Exec.

(** The file system, as far as [-e] sees it. *)
Variable stat : string -> bool.

(** Standard output: whether [echo] can write, given what it was handed
    before and what it is handed now.  It cannot when the descriptor is
    closed or the device is full, and then [echo] fails with status 1. *)
Variable write : list string -> string -> bool.

(** No file has the empty name: [[ -e "" ]] is false whatever the disk
    holds. *)
Definition file_exists (p : string) : bool :=
  if decide (p = "") then false else stat p.

Fixpoint eval_test (t : test) (σ : state) : bool * state :=
  match t with
  | TExists w =>
      let p := expand σ w in (file_exists p, probe p σ)
  | TNot t' =>
      let '(b, σ') := eval_test t' σ in (negb b, σ')
  end.

(** The net effect of [if [ ! -e "$x" ]; then echo -e "w"; fi] when [echo]
    can write: the path is probed and the message is echoed when no file is
    there. *)
Definition unless_exists (x : string) (w : word) (σ : state) : state :=
  let p := expand σ [Var x] in
  let σ1 := with_status 0 (probe p σ) in
  with_status 0 (echo_all (if file_exists p then [] else [expand σ1 w]) σ1).

Inductive outcome :=
| Running (σ : state)        (* control reaches the next command *)
| Exited (σ : state).        (* the shell has exited with [status σ] *)

Definition final (o : outcome) : state :=
  match o with Running σ | Exited σ => σ end.

Definition on_return (o : outcome) : outcome :=
  match o with
  | Running σ => Running (pop_frame σ)
  | Exited σ => Exited σ
  end.

(** One command, given [rec] to run the body of an [if] or of a
    function.  A name that is not a function is not found (status 127). *)
Definition exec_cmd (rec : list cmd -> state -> option outcome)
    (c : cmd) (σ : state) : option outcome :=
  match c with
  | CSet_e => Some (Running (with_status 0 (with_errexit true σ)))
  | CAssign x w => Some (Running (with_status 0 (assign x (expand σ w) σ)))
  | CLocal x w => Some (Running (declare_local x (expand σ w) σ))
  | CFun f body => Some (Running (with_status 0 (with_fun f body σ)))
  | CIf c body =>
      let '(b, σ1) := eval_test c σ in
      if b then rec body (with_status 0 σ1)
      else Some (Running (with_status 0 σ1))
  | CEcho_e w =>
      let s := expand σ w in
      if write (echoed σ) s then Some (Running (with_status 0 (echo s σ)))
      else Some (Running (with_status 1 σ))
  | CCall f =>
      match funs σ !! f with
      | None => Some (Running (with_status 127 σ))
      | Some body => on_return <$> rec body (push_frame σ)
      end
  end.

(** After every command that is not the condition of an [if], the body
    of an [if] included, a non-zero status under [set -e] leaves the
    shell. *)
Definition and_then (rec : list cmd -> state -> option outcome)
    (rest : list cmd) (r : outcome) : option outcome :=
  match r with
  | Exited σ' => Some (Exited σ')
  | Running σ' =>
      if errexit σ' && negb (Z.eqb (status σ') 0) then Some (Exited σ')
      else rec rest σ'
  end.

(** [exec fuel cs σ] runs the command list; [None] means the fuel ran
    out. *)
Fixpoint exec (fuel : nat) (cs : list cmd) (σ : state) : option outcome :=
  match fuel with
  | O => None
  | S n =>
      match cs with
      | [] => Some (Running σ)
      | c :: rest => exec_cmd (exec n) c σ ≫= and_then (exec n) rest
      end
  end.

(** Running a script in an inherited environment.  [Running σ] means the
    last command was reached, [Exited σ] that [set -e] left earlier; either
    way the exit status of the shell is the status of the last command it
    ran. *)
Definition run_script (fuel : nat) (script : list cmd)
    (environ : gmap string string) : option outcome :=
  exec fuel script (initial environ).

Definition exit_status (o : outcome) : Z := status (final o).

End Exec.

(** Normalising a state expression: only the shell's own definitions are
    unfolded, the maps stay as written. *)
Ltac shell_norm :=
  cbv beta iota delta
    [exec_cmd and_then mbind option_bind fmap option_fmap option_map on_return
     final eval_test expand expand_part get_var lookup_frames assign
     assign_frames declare_local push_frame pop_frame with_status with_errexit
     with_vars with_fun echo echo_all probe unless_exists initial
     globals frames funs errexit status echoed probed andb negb Z.eqb tail];
  cbn [from_option id].

Ltac shell_lookup :=
  rewrite ?lookup_insert_eq, ?lookup_empty;
  repeat (rewrite lookup_insert_ne by done;
          rewrite ?lookup_insert_eq, ?lookup_empty).

Ltac shell_simpl :=
  shell_norm; repeat (progress shell_lookup; shell_norm).

End Shell.

(** ** The credential check (AWS and Google spreadsheet) *)

Module CheckCredentials.
Import Shell.

(** The text both functions put before the missing path, and after it. *)
Definition aws_failed : string :=
  "\e[33mWARNING\e[0m: AWS credential check failed: can't find ".

Definition google_failed : string :=
  "\e[33mWARNING\e[0m: Google API credential check failed: can't find ".

Definition test_aws : list cmd :=
  [ CLocal "_aws_cred_file" [Var "AWS_VOLUME"; Lit "credentials"];
    CLocal "_aws_conf_file" [Var "AWS_VOLUME"; Lit "config"];
    CIf (TNot (TExists [Var "_aws_cred_file"]))
      [ CEcho_e [Lit aws_failed; Var "_aws_cred_file"; Lit " file."] ];
    CIf (TNot (TExists [Var "_aws_conf_file"]))
      [ CEcho_e [Lit aws_failed; Var "_aws_conf_file"; Lit " file."] ] ].

(** The first conditional reads [$_aws_cred_file], as the script does. *)
Definition test_gspread_pandas : list cmd :=
  [ CLocal "_google_secret_file" [Var "GSPREAD_PANDAS_VOLUME"; Lit "google_secret.json"];
    CLocal "_google_cred_file" [Var "GSPREAD_PANDAS_VOLUME"; Lit "creds/default"];
    CIf (TNot (TExists [Var "_aws_cred_file"]))
      [ CEcho_e [Lit google_failed; Var "_google_secret_file"; Lit " file."] ];
    CIf (TNot (TExists [Var "_google_cred_file"]))
      [ CEcho_e [Lit google_failed; Var "_google_cred_file"; Lit " file."] ] ].

Definition script : list cmd :=
  [ CSet_e;
    CAssign "AWS_VOLUME" [Var "HOME"; Lit "/.aws/"];
    CAssign "GSPREAD_PANDAS_VOLUME" [Var "HOME"; Lit "/.config/gspread_pandas/"];
    CFun "test_aws" test_aws;
    CFun "test_gspread_pandas" test_gspread_pandas;
    CCall "test_aws";
    CCall "test_gspread_pandas" ].

(** The two volumes and the four paths the script builds from [$HOME]. *)
Definition home (environ : gmap string string) : string :=
  default "" (environ !! "HOME").

Definition aws_volume (environ : gmap string string) : string :=
  home environ +:+ "/.aws/".

Definition gspread_pandas_volume (environ : gmap string string) : string :=
  home environ +:+ "/.config/gspread_pandas/".

Definition aws_cred_file (environ : gmap string string) : string :=
  aws_volume environ +:+ "credentials".

Definition aws_conf_file (environ : gmap string string) : string :=
  aws_volume environ +:+ "config".

Definition google_secret_file (environ : gmap string string) : string :=
  gspread_pandas_volume environ +:+ "google_secret.json".

Definition google_cred_file (environ : gmap string string) : string :=
  gspread_pandas_volume environ +:+ "creds/default".

Definition warning (prefix path : string) : string :=
  prefix +:+ path +:+ " file.".

(** What a conditional of the script echoes for a path. *)
Definition warn_unless (found : bool) (prefix path : string) : list string :=
  if found then [] else [warning prefix path].

(** What the script reads from the environment besides [$HOME]: the first
    conditional of [test_gspread_pandas] expands [$_aws_cred_file] after the
    frame of [test_aws] is gone, so only an inherited value can be seen. *)
Definition inherited_aws_cred_file (environ : gmap string string) : string :=
  default "" (environ !! "_aws_cred_file").

(** An argument of [echo -e] that is one of the script's warnings. *)
Definition is_warning (line : string) : bool :=
  String.prefix "\e[33mWARNING\e[0m: " line.

Section States.

Variable stat : string -> bool.
Variable environ : gmap string string.

(** The states a run goes through when every [echo] can write.

    The state in which the two functions are called. *)
Definition prepared : state :=
  {| globals := <["GSPREAD_PANDAS_VOLUME" := gspread_pandas_volume environ]>
                  (<["AWS_VOLUME" := aws_volume environ]> environ);
     frames := [];
     funs := <["test_gspread_pandas" := test_gspread_pandas]>
               (<["test_aws" := test_aws]> ∅);
     errexit := true; status := 0; echoed := []; probed := [] |}.

(** [test_aws], called from the prepared state. *)
Definition after_test_aws : state :=
  let σ0 := push_frame prepared in
  let σ1 := declare_local "_aws_cred_file" (aws_cred_file environ) σ0 in
  let σ2 := declare_local "_aws_conf_file" (aws_conf_file environ) σ1 in
  let σ3 := unless_exists stat "_aws_cred_file"
              [Lit aws_failed; Var "_aws_cred_file"; Lit " file."] σ2 in
  pop_frame (unless_exists stat "_aws_conf_file"
               [Lit aws_failed; Var "_aws_conf_file"; Lit " file."] σ3).

(** [test_gspread_pandas], called next. *)
Definition after_test_gspread_pandas : state :=
  let σ0 := push_frame after_test_aws in
  let σ1 := declare_local "_google_secret_file" (google_secret_file environ) σ0 in
  let σ2 := declare_local "_google_cred_file" (google_cred_file environ) σ1 in
  let σ3 := unless_exists stat "_aws_cred_file"
              [Lit google_failed; Var "_google_secret_file"; Lit " file."] σ2 in
  pop_frame (unless_exists stat "_google_cred_file"
               [Lit google_failed; Var "_google_cred_file"; Lit " file."] σ3).

End States.

End CheckCredentials.

(** ** dev_scripts/lint_md.sh *)

Module LintMd.

(** One external command as the script starts it: its words, a here
    document on standard input, a file receiving standard output. *)
Record invocation := Invocation {
  argv : list string;
  stdin : option string;
  stdout_file : option string
}.

Definition command (words : list string) : invocation :=
  {| argv := words; stdin := None; stdout_file := None |}.

(** Exit status and standard output of a finished command. *)
Record reply := Reply { exit_code : Z; output : string }.

(** The script either goes on with a value or the shell has left with a
    status ([set -e]). *)
Inductive result (A : Type) :=
| Ok (a : A)
| Abort (code : Z).
Arguments Ok {A} a.
Arguments Abort {A} code.

(** Commands thread the list of invocations made so far, oldest first. *)
Definition sh (A : Type) : Type :=
  list invocation -> list invocation * result A.

#[global] Instance sh_ret : MRet sh := fun A a t => (t, Ok a).

#[global] Instance sh_bind : MBind sh := fun A B k m t =>
  match m t with
  | (t', Ok a) => k a t'
  | (t', Abort c) => (t', Abort c)
  end.

(** Field splitting of an unquoted expansion on the default [IFS]
    (space, tab, newline). *)
Definition is_ifs (c : ascii) : bool :=
  match c with
  | " " | "009" | "010" => true
  | _ => false
  end%char.

Fixpoint fields_go (cur : string) (s : string) : list string :=
  match s with
  | "" => if decide (cur = "") then [] else [String.rev cur]
  | String c s' =>
      if is_ifs c
      then (if decide (cur = "") then [] else [String.rev cur]) ++ fields_go "" s'
      else fields_go (String c cur) s'
  end.

Definition fields (s : string) : list string := fields_go "" s.

(** A field with a pattern character is subject to pathname expansion. *)
Fixpoint has_pattern (s : string) : bool :=
  match s with
  | "" => false
  | String c s' =>
      match c with
      | "*" | "?" | "[" => true
      | _ => has_pattern s'
      end%char
  end.

(** Command substitution drops the newlines that end the output. *)
Fixpoint strip_newlines_rev (r : string) : string :=
  match r with
  | String "010"%char r' => strip_newlines_rev r'
  | _ => r
  end.

Definition strip_trailing_newlines (s : string) : string :=
  String.rev (strip_newlines_rev (String.rev s)).

(** ["$@"] inside a longer quoted word, and [$@] in a here document: the
    positional parameters joined by one space. *)
Definition joined (args : list string) : string := String.concat " " args.

(** In a here document with an unquoted delimiter a backslash before a
    newline continues the line. *)
Fixpoint join_continued (s : string) : string :=
  match s with
  | String "\"%char (String "010"%char s') => join_continued s'
  | String c s' => String c (join_continued s')
  | "" => ""
  end.

Definition TMP_FILENAME : string := "/tmp/tmp.lint_markdown.Dockerfile".

Definition DOCKER_CONTAINER_NAME : string := "sorrentum_mdlint".

(** The body of the first here document, as it stands in the script. *)
Definition dockerfile_text : string :=
"FROM ubuntu:latest

RUN apt-get update && \
    apt-get -y upgrade

RUN apt-get install -y curl && \
    apt-get clean && \
    rm -rf /var/lib/apt/lists/*

# Install Node.js.
RUN curl -sL https://deb.nodesource.com/setup_18.x | bash -
RUN apt-get update && apt-get install -y nodejs
RUN node -v
RUN npm -v

# Install Prettier.
RUN npm install -g prettier && \
    npm install -g markdown-toc

RUN npx prettier -v

".

(** The body of the second here document, [$@] expanded. *)
Definition run_linter_text (args : list string) : string :=
"
npx prettier --parser markdown --prose-wrap always --tab-width 2 --write "
  +:+ joined args +:+ "
npx markdown-toc -i " +:+ joined args +:+ "

".

Section Script.

(** The machine the script runs on: what a command answers, given the
    invocations before it, and which paths match a pattern. *)
Variable world : list invocation -> invocation -> reply.
Variable matches : string -> list string.

(** Pathname expansion: a pattern with no match stays as it is. *)
Definition glob (w : string) : list string :=
  if has_pattern w then
    match matches w with
    | [] => [w]
    | ms => ms
    end
  else [w].

(** An expansion outside double quotes. *)
Definition unquoted (s : string) : list string :=
  fields s ≫= glob.

Definition spawn (inv : invocation) : sh reply :=
  fun t => (t ++ [inv], Ok (world t inv)).

(** [set -e]: a failing command ends the script with its status. *)
Definition errexit (code : Z) : sh unit :=
  fun t => if Z.eqb code 0 then (t, Ok tt) else (t, Abort code).

Definition run (inv : invocation) : sh unit :=
  r ← spawn inv; errexit (exit_code r).

(** [$(words)]: the status is kept for the caller to judge. *)
Definition substitute (words : list string) : sh reply :=
  r ← spawn (command words);
  mret {| exit_code := exit_code r;
          output := strip_trailing_newlines (output r) |}.

(** The script, command by command ([$@] is [args]).  Of [set -eux],
    [-x] only traces to standard error and [-u] never fires: every
    parameter the script expands has been assigned, and [$@] is exempt.
    [export] only marks the variable. *)
Definition lint_md (args : list string) : sh unit :=
  run {| argv := ["cat"];
         stdin := Some (join_continued dockerfile_text);
         stdout_file := Some TMP_FILENAME |};;
  run (command (["docker"; "build"; "-f"] ++ unquoted TMP_FILENAME
                ++ ["-t"] ++ unquoted DOCKER_CONTAINER_NAME ++ ["."]));;
  (* USER="$(id -u $(logname)):$(id -g $(logname))": the assignment has
     the status of the last substitution *)
  name_u ← substitute ["logname"];
  uid ← substitute (["id"; "-u"] ++ unquoted (output name_u));
  name_g ← substitute ["logname"];
  gid ← substitute (["id"; "-g"] ++ unquoted (output name_g));
  errexit (exit_code gid);;
  let USER := output uid +:+ ":" +:+ output gid in
  (* WORKDIR="$(realpath .)" *)
  here ← substitute ["realpath"; "."];
  errexit (exit_code here);;
  let WORKDIR := output here in
  let MOUNT := "type=bind,source=" +:+ WORKDIR +:+ ",target=" +:+ WORKDIR in
  run {| argv := ["cat"];
         stdin := Some (run_linter_text args);
         stdout_file := Some "./run_linter.sh" |};;
  run (command ["chmod"; "+x"; "./run_linter.sh"]);;
  let CMD := "bash -c ./run_linter.sh " +:+ joined args in
  run (command (["docker"; "run"; "--rm"; "-it"; "--workdir"; WORKDIR;
                 "--mount"; MOUNT; "markdownlint:latest"] ++ unquoted CMD));;
  run (command ["rm"; "run_linter.sh"]);;
  run (command (["rm"] ++ unquoted TMP_FILENAME)).

(** A whole run: the invocations made and how the shell ended. *)
Definition run_lint_md (args : list string) : list invocation * result unit :=
  lint_md args [].

End Script.


Definition is_docker_build (words : list string) : bool :=
  match words with
  | "docker" :: "build" :: _ => true
  | _ => false
  end.



Definition is_docker_run (words : list string) : bool :=
  match words with
  | "docker" :: "run" :: _ => true
  | _ => false
  end.





Definition runs_docker (inv : invocation) : Prop :=
  is_docker_run (argv inv) = true.

(** Three ways to speak about the invocations of a script: all of them
    satisfy [Q]; earlier ones are never forgotten; one that satisfies [Q] has
    been made whenever the script goes on. *)
Definition emits {A} (Q : invocation -> Prop) (m : sh A) : Prop :=
  forall t, Forall Q t -> Forall Q (m t).1.



End LintMd.

(** ** Scripts that only start commands

    The remaining scripts of the tree define no function: they assign
    constants, expand them into command lines and start one command after
    the other, some under [set -e].  They are embedded as functions of a
    monad that keeps the commands started so far. *)

Module Bash.

(** *** Words *)

(** A word of a command line before expansion: text that is taken as it
    stands (quoted text, and literal text without blanks or pattern
    characters) and the results of unquoted expansions ([$x], [$(...)]),
    which are split into fields and globbed. *)
Inductive segment :=
| Text (s : string)
| Expansion (s : string).

Definition word := list segment.

Definition lit (s : string) : word := [Text s].

Definition var (s : string) : word := [Expansion s].

Definition lits (l : list string) : list word := lit <$> l.

(** A field after splitting: its text, and whether it holds a pattern
    character that came from an expansion, in which case it is globbed.
    (The text next to an expansion holds no pattern character in these
    scripts, so the pattern is the field itself.) *)
Definition field : Type := string * bool.

Definition is_pattern_char (c : ascii) : bool :=
  match c with
  | "*" | "?" | "[" => true
  | _ => false
  end%char.

(** Field splitting on the default [IFS].  [None] means that no field has
    been begun, so an expansion that is empty or blank adds nothing while
    quoted text, even empty, begins a field. *)
Definition flush (cur : option field) : list field :=
  match cur with
  | Some f => [f]
  | None => []
  end.

Definition push (c : ascii) (cur : option field) : option field :=
  match cur with
  | Some (r, g) => Some (r +:+ String c "", g || is_pattern_char c)
  | None => Some (String c "", is_pattern_char c)
  end.

Fixpoint split_expansion (cur : option field) (s : string)
    : list field * option field :=
  match s with
  | "" => ([], cur)
  | String c s' =>
      if LintMd.is_ifs c
      then let '(fs, cur') := split_expansion None s' in (flush cur ++ fs, cur')
      else split_expansion (push c cur) s'
  end.

Definition add_text (cur : option field) (s : string) : option field :=
  match cur with
  | Some (r, g) => Some (r +:+ s, g)
  | None => Some (s, false)
  end.

Fixpoint split_segments (cur : option field) (w : word) : list field :=
  match w with
  | [] => flush cur
  | Text s :: w' => split_segments (add_text cur s) w'
  | Expansion s :: w' =>
      let '(fs, cur') := split_expansion cur s in fs ++ split_segments cur' w'
  end.

Definition split_word (w : word) : list field := split_segments None w.

(** Pathname expansion of a field: a pattern with no match stays as it
    is. *)
Definition glob_field (found : string -> list string) (f : field)
    : list string :=
  if f.2 then
    match found f.1 with
    | [] => [f.1]
    | ms => ms
    end
  else [f.1].

(** The words a command line gives, [found] listing the paths that match
    a pattern. *)
Definition fields_of (found : string -> list string) (ws : list word)
    : list string :=
  ws ≫= fun w => split_word w ≫= glob_field found.

(** A string that expansion leaves alone: no blank and no pattern
    character. *)
Fixpoint plain (s : string) : bool :=
  match s with
  | "" => true
  | String c s' => negb (LintMd.is_ifs c) && negb (is_pattern_char c) && plain s'
  end.

(** ["${FILES//$'\n'/ }"]: every newline becomes a blank. *)
Fixpoint newlines_to_blanks (s : string) : string :=
  match s with
  | "" => ""
  | String c s' =>
      String (if Ascii.eqb c "010" then " " else c)%char (newlines_to_blanks s')
  end.

(** [[ l == r ]] where [r] holds no pattern character, and [[ s ]]. *)
Definition test_eq (l r : string) : bool := bool_decide (l = r).

Definition test_nonempty (s : string) : bool := negb (bool_decide (s = "")).

(** *** Commands *)

(** A simple command as the shell starts it: the assignments written
    before the command name, which reach the environment of that command
    only, the expanded words, and whether standard error was joined to
    standard output ([2>&1]).  Builtins ([echo], [cd], [pwd]) are recorded
    like any other command: what matters of them is their exit status. *)
Record process := Process {
  assigned : list (string * string);
  words : list string;
  stderr_to_stdout : bool
}.

Definition simple (ws : list string) : process :=
  {| assigned := []; words := ws; stderr_to_stdout := false |}.

Definition name (p : process) : option string := head (words p).

(** A script threads the list of events so far, oldest first, and either
    goes on with a value or has left the shell with a status. *)
Definition script (E A : Type) : Type :=
  list E -> list E * LintMd.result A.

Section Monad.

Context {E : Type}.

#[export] Instance script_ret : MRet (script E) :=
  fun A a t => (t, LintMd.Ok a).

#[export] Instance script_bind : MBind (script E) := fun A B k m t =>
  match m t with
  | (t', LintMd.Ok a) => k a t'
  | (t', LintMd.Abort c) => (t', LintMd.Abort c)
  end.

(** [wp m Q F t]: started after [t], the script [m] either goes on with a
    value and events that satisfy [Q], or leaves with a status and events
    that satisfy [F]. *)
Definition wp {A} (m : script E A) (Q : A -> list E -> Prop)
    (F : Z -> list E -> Prop) (t : list E) : Prop :=
  match m t with
  | (t', LintMd.Ok a) => Q a t'
  | (t', LintMd.Abort c) => F c t'
  end.

End Monad.

Section Discipline.

Context {E A : Type}.

(** What the commands answer, and which of them the shell judges under
    [set -e]: a command substitution among the words of a command, or one
    that is not the last of an assignment, is not judged, and neither is a
    stage of a pipeline that is not the last. *)
Variable world : list E -> E -> LintMd.reply.
Variable judged : E -> Prop.

(** Every judged command of [t] has succeeded. *)
Definition all_succeeded (t : list E) : Prop :=
  forall t0 e t1,
    t = t0 ++ e :: t1 -> judged e -> LintMd.exit_code (world t0 e) = 0.

(** What [set -e] promises of a run: every judged command of a run that
    goes on has succeeded; a run that leaves does so with the status, not
    zero, of the command started last, which is a judged one, after every
    judged command before it has succeeded. *)
Definition stops_at_first_failure (r : list E * LintMd.result A) : Prop :=
  match r.2 with
  | LintMd.Ok _ => all_succeeded r.1
  | LintMd.Abort c =>
      c <> 0 /\
      exists t e,
        r.1 = t ++ [e] /\ judged e /\
        LintMd.exit_code (world t e) = c /\ all_succeeded t
  end.

(** The same of a script started after any events: [left_by] is how it
    may leave. *)
Definition left_by (c : Z) (t' : list E) : Prop :=
  c <> 0 /\
  exists t e,
    t' = t ++ [e] /\ judged e /\
    LintMd.exit_code (world t e) = c /\ all_succeeded t.

Definition disciplined (m : script E A) : Prop :=
  forall t, all_succeeded t ->
    wp m (fun _ t' => all_succeeded t') left_by t.

(** Every event of the script satisfies [P]. *)
Definition always (P : E -> Prop) (m : script E A) : Prop :=
  forall t, Forall P t -> Forall P (m t).1.

End Discipline.

(** The exit status of a script whose last command answered [r]. *)
Definition exit_status (r : LintMd.result LintMd.reply) : Z :=
  match r with
  | LintMd.Ok r => LintMd.exit_code r
  | LintMd.Abort c => c
  end.

Section Machine.

(** What a command answers after the commands before it, and which paths
    match a pattern at that moment. *)
Variable world : list process -> process -> LintMd.reply.
Variable matches : list process -> string -> list string.

Definition spawn (p : process) : script process LintMd.reply :=
  fun t => (t ++ [p], LintMd.Ok (world t p)).

(** [set -e]: a failing command ends the script with its status. *)
Definition errexit (code : Z) : script process unit :=
  fun t => if Z.eqb code 0 then (t, LintMd.Ok tt) else (t, LintMd.Abort code).

(** [$(words)]: the output without the newlines that end it; the status
    is kept for the caller to judge. *)
Definition substitute (ws : list string) : script process LintMd.reply :=
  r ← spawn (simple ws);
  mret {| LintMd.exit_code := LintMd.exit_code r;
          LintMd.output := LintMd.strip_trailing_newlines (LintMd.output r) |}.

(** The words of one command are split, then globbed against the disk as
    it is once the substitutions of that command have run. *)
Definition expand (ws : list word) : script process (list string) :=
  fun t => (t, LintMd.Ok (fields_of (matches t) ws)).

(** A command whose status is only kept, and one that [set -e] judges. *)
Definition command (ws : list word) : script process LintMd.reply :=
  args ← expand ws; spawn (simple args).

Definition checked (ws : list word) : script process unit :=
  r ← command ws; errexit (LintMd.exit_code r).

(** [p1 | ... | pn]: every stage is started; the status is that of the
    last one. *)
Fixpoint pipeline (ps : list process) : script process LintMd.reply :=
  match ps with
  | [] => mret {| LintMd.exit_code := 0; LintMd.output := "" |}
  | [p] => spawn p
  | p :: ps' => spawn p;; pipeline ps'
  end.

End Machine.

End Bash.

(** ** The comparison of the dev scripts of two repos *)

Module CompareDevScripts.
Import Bash.

Section Script.

Variable world : list process -> process -> LintMd.reply.
Variable matches : list process -> string -> list string.

(** The script as a shell started with its default options runs it
    ([Shell.default_startup]); of the environment it reads [HOME].
    [set -x] only traces.  Nothing stops the script early; its status is
    that of the last command. *)
Definition compare_dev_scripts (environ : gmap string string)
    : script process LintMd.reply :=
  let HOME := default "" (environ !! "HOME") in
  let GIT_CLIENT := "lemonade1" in
  command world matches [lit "echo"; lit ("GIT_CLIENT=" +:+ GIT_CLIENT)];;
  if test_eq "1" "1" then
    (* amp vs lm *)
    let DIR1 := HOME +:+ "/src/" +:+ GIT_CLIENT +:+ "/amp" in
    let DIR2 := HOME +:+ "/src/" +:+ GIT_CLIENT in
    command world matches [lit "echo"; lit ("DIR1=" +:+ DIR1)];;
    command world matches [lit "echo"; lit ("DIR2=" +:+ DIR2)];;
    (if test_eq "0" "1" then
       command world matches
         [lit "vimdiff";
          [Expansion DIR1; Text "/dev_scripts/go_amp.sh"];
          [Expansion DIR2; Text "/dev_scripts_lem/go_lem.sh"]];;
       command world matches
         [lit "vimdiff";
          [Expansion DIR1; Text "/dev_scripts/tmux_amp.sh"];
          [Expansion DIR2; Text "/dev_scripts_lem/tmux_lem.sh"]];;
       command world matches
         [lit "vimdiff";
          [Expansion DIR1; Text "/dev_scripts/setenv_amp.sh"];
          [Expansion DIR2; Text "/dev_scripts_lem/setenv.sh"]];;
       mret tt
     else mret tt);;
    command world matches
      [lit "diff_to_vimdiff.py";
       lit "--dir1"; [Expansion DIR1; Text "/.github"];
       lit "--dir2"; [Expansion DIR2; Text "/.github"]]
  else
    (* amp vs dev_tools *)
    let DIR1 := HOME +:+ "/src/" +:+ GIT_CLIENT +:+ "/amp" in
    let DIR2 := HOME +:+ "/src/dev_tools1" in
    command world matches [lit "echo"; lit ("DIR1=" +:+ DIR1)];;
    command world matches [lit "echo"; lit ("DIR2=" +:+ DIR2)];;
    command world matches
      [lit "vimdiff";
       [Expansion DIR1; Text "/dev_scripts/go_amp.sh"];
       [Expansion DIR2; Text "/dev_scripts/go_dev_tools.sh"]];;
    command world matches
      [lit "vimdiff";
       [Expansion DIR1; Text "/dev_scripts/tmux_amp.sh"];
       [Expansion DIR2; Text "/dev_scripts/tmux_dev_tools.sh"]];;
    command world matches
      [lit "vimdiff";
       [Expansion DIR1; Text "/dev_scripts/setenv_amp.sh"];
       [Expansion DIR2; Text "/dev_scripts/setenv_dev_tools.sh"]];;
    (* {$DIR1,$DIR2}/...: the braces give one word per alternative *)
    command world matches
      [lit "vimdiff";
       [Expansion DIR1; Text "/dev_scripts/client_setup/build.sh"];
       [Expansion DIR2; Text "/dev_scripts/client_setup/build.sh"]];;
    command world matches
      [lit "vimdiff";
       [Expansion DIR1; Text "/dev_scripts/client_setup/requirements.txt"];
       [Expansion DIR2; Text "/dev_scripts/client_setup/requirements.txt"]].

End Script.

End CompareDevScripts.

(** ** CMTask2692: the renaming of [system_tester] *)

Module RefactorSystemTestCase.
Import Bash.

Definition script_name : string :=
  "amp/dev_scripts/cleanup_scripts/CMTask2692_Refactor_system_test_case.sh".

Definition outputs : string := "helpers/test/outcomes/".

Definition system_test_case : string :=
  "amp/dataflow/system/system_test_case.py".

(** One call of [replace_text.py]; the three [--exclude_files] are the
    same in every call. *)
Definition replace_text (old new : string) : list word :=
  [lit "replace_text.py";
   lit "--old"; lit old;
   lit "--new"; lit new;
   lit "--exclude_files"; var script_name;
   lit "--exclude_files"; var outputs;
   lit "--exclude_files"; var system_test_case].

Section Script.

Variable world : list process -> process -> LintMd.reply.
Variable matches : list process -> string -> list string.

(** [#!/bin/bash -xe]: every command is judged. *)
Definition refactor_system_test_case : script process unit :=
  checked world matches (replace_text "system_tester." "dtfsys.");;
  checked world matches
    (replace_text "import dataflow.system.test.system_test_case as dtfsytsytc"
                  "import dataflow.system as dtfsys");;
  checked world matches (replace_text "dtfsytsytc." "dtfsys.");;
  (* Remove unused imports from affected files. *)
  checked world matches (lits ["invoke"; "lint"; "-m"; "--only-format"]).

End Script.

End RefactorSystemTestCase.

(** ** The launcher of the tiled backtest of Example1 *)

Module RunTiledBacktest.
Import Bash.

Definition dquote : string := String "034"%char "".

Definition config_builder : string :=
  "dataflow.pipelines.examples.example1_configs.build_tile_configs("
  +:+ dquote +:+ "example1_v1-top2.1T.Jan2000" +:+ dquote +:+ ")".

Definition dst_dir : string :=
  "/app/dataflow/pipelines/examples/test/outcomes/Test_Example1_TiledBacktest.test1/tmp.scratch/run_model".

Section Script.

Variable world : list process -> process -> LintMd.reply.
Variable matches : list process -> string -> list string.

(** No [set -e] and no [pipefail]: the status of the script is the status
    of its last pipeline, which is the status of [tee]. *)
Definition run_tiled_backtest : script process LintMd.reply :=
  (if test_eq "1" "0" then
     command world matches
       (lits ["/app/dataflow/model/run_experiment.py";
              "--experiment_builder";
              "dataflow.model.master_experiment.run_tiled_backtest";
              "--config_builder"; config_builder;
              "--dst_dir"; dst_dir;
              "-v"; "DEBUG"; "--clean_dst_dir"; "--no_confirm";
              "--num_threads"; "serial"]);;
     mret tt
   else mret tt);;
  stub ← expand matches
    (lits ["/app/dataflow/model/run_experiment_stub.py";
           "--experiment_builder";
           "dataflow.model.master_experiment.run_tiled_backtest";
           "--config_builder"; config_builder;
           "--config_idx"; "0";
           "--dst_dir"; dst_dir;
           "-v"; "INFO"]);
  tee ← expand matches (lits ["tee"; "log.txt"]);
  pipeline world
    [ {| assigned := []; words := stub; stderr_to_stdout := true |};
      simple tee ].

End Script.

End RunTiledBacktest.

(** ** defi/devops/docker_bash.sh *)

Module DockerBash.
Import Bash.

(** [id -u] is not the last substitution of its assignment and [pwd] is
    a substitution among the words of a command: the shell does not act on
    their failure. *)
Definition judged (p : process) : Prop :=
  words p <> ["id"; "-u"] /\ words p <> ["pwd"].

Section Script.

Variable world : list process -> process -> LintMd.reply.
Variable matches : list process -> string -> list string.

(** [#!/bin/bash -xe].  An assignment has the status of the last command
    substitution in it; a substitution among the words of a command does
    not count for [set -e]. *)
Definition docker_bash : script process unit :=
  let IMAGE_NAME := "defi" in
  let CONTAINER_NAME := IMAGE_NAME in
  (* OPTS="--user $(id -u):$(id -g)" *)
  uid ← substitute world ["id"; "-u"];
  gid ← substitute world ["id"; "-g"];
  errexit (LintMd.exit_code gid);;
  let OPTS := "--user " +:+ LintMd.output uid +:+ ":" +:+ LintMd.output gid in
  here ← substitute world ["pwd"];
  checked world matches
    ([lit "docker"; lit "run"; var OPTS; lit "--rm"; lit "-ti";
      lit "--net"; lit "bridge"; lit "--name"; var CONTAINER_NAME;
      lit "-p"; lit "5920:5920"; lit "-p"; lit "3001:3000";
      lit "-p"; lit "7545:7545"; lit "-p"; lit "8545:8545";
      lit "-p"; lit "8889:8888";
      lit "-v"; [Expansion (LintMd.output here); Text ":/data"];
      var IMAGE_NAME]).

End Script.

End DockerBash.

(** ** devops/docker_build/install_os_packages.sh *)

Module InstallOsPackages.
Import Bash.

Definition FILE_NAME : string := "devops/docker_build/install_os_packages.sh".

Definition banner : string :=
  "#############################################################################".

Definition APT_GET_OPTS : string := "-y --no-install-recommends".

Definition DIRS : string := "/root/.cache /tmp/*".

(** The commands whose failure the shell does not act on: the version
    queries, which are substitutions among the words of an [echo], and [du],
    which is not the last command of its pipeline. *)
Definition version_queries : list (list string) :=
  [ ["python3"; "--version"]; ["pip3"; "--version"];
    ["poetry"; "--version"]; ["gh"; "--version"] ].

Definition judged (p : process) : Prop :=
  (words p ∉ version_queries) /\ name p <> Some "du".

(** The commands that remove something: [rm] and [apt-get purge]. *)
Definition cleans (p : process) : Prop :=
  name p = Some "rm" \/ take 2 (words p) = ["apt-get"; "purge"].

(** [apt-get install $APT_GET_OPTS package ...] *)
Definition apt_get_install (packages : list string) : list word :=
  [lit "apt-get"; lit "install"; var APT_GET_OPTS] ++ lits packages.

Section Script.

Variable world : list process -> process -> LintMd.reply.
Variable matches : list process -> string -> list string.

(** [echo "LABEL="$(tool --version)]: the failure of the tool is not the
    failure of [echo]. *)
Definition echo_version (label tool : string) : script process unit :=
  v ← substitute world [tool; "--version"];
  checked world matches [lit "echo"; [Text label; Expansion (LintMd.output v)]].

(** The script as a shell started with its default options runs it
    ([Shell.default_startup]): no [pipefail], and a pattern without a match
    stays as it is; of the environment it reads [CLEAN_UP_INSTALLATION].
    [set -ex].  [DEBIAN_FRONTEND=noninteractive] on a line of its own
    sets a variable that the script never expands; before a command name
    it is an assignment for that command. *)
Definition install_os_packages (environ : gmap string string) : script process unit :=
  let CLEAN_UP_INSTALLATION := default "" (environ !! "CLEAN_UP_INSTALLATION") in
  checked world matches [lit "echo"; lit banner];;
  checked world matches [lit "echo"; lit ("##> " +:+ FILE_NAME)];;
  checked world matches [lit "echo"; lit banner];;
  (* Update the package listing, so we know what package exist. *)
  checked world matches (lits ["apt-get"; "update"]);;
  (* Install security updates. *)
  checked world matches (lits ["apt-get"; "-y"; "upgrade"]);;
  checked world matches (apt_get_install ["cifs-utils"]);;
  checked world matches (apt_get_install ["git"]);;
  checked world matches (apt_get_install ["keyutils"]);;
  checked world matches (apt_get_install ["make"]);;
  checked world matches (apt_get_install ["iproute2"]);;
  checked world matches (apt_get_install ["vim"]);;
  checked world matches
    (apt_get_install ["build-essential"; "autoconf"; "libtool"; "python3-dev"]);;
  (* Install pip. *)
  checked world matches (apt_get_install ["python3-venv"; "python3-pip"]);;
  echo_version "PYTHON VERSION=" "python3";;
  echo_version "PIP VERSION=" "pip3";;
  (* Install poetry. *)
  checked world matches (lits ["pip3"; "install"; "poetry"]);;
  echo_version "POETRY VERSION=" "poetry";;
  (* Install github CLI. *)
  args ← expand matches (lits ["apt-get"; "install"; "-y"; "tzdata"]);
  r ← spawn world {| assigned := [("DEBIAN_FRONTEND", "noninteractive")];
                     words := args; stderr_to_stdout := false |};
  errexit (LintMd.exit_code r);;
  checked world matches (apt_get_install ["software-properties-common"]);;
  checked world matches (apt_get_install ["dirmngr"]);;
  checked world matches (apt_get_install ["gpg-agent"]);;
  checked world matches
    (lits ["apt-key"; "adv"; "--keyserver"; "keyserver.ubuntu.com";
           "--recv-key"; "23F3D4EA75716059"]);;
  checked world matches
    (lits ["apt-add-repository"; "https://cli.github.com/packages"]);;
  checked world matches (lits ["apt-get"; "update"]);;
  checked world matches (apt_get_install ["gh"]);;
  echo_version "GH VERSION=" "gh";;
  (* This is needed to install pygraphviz. *)
  checked world matches (apt_get_install ["libgraphviz-dev"]);;
  (* This is needed to install dot. *)
  checked world matches (apt_get_install ["graphviz"]);;
  (* This is needed for Postgres DB. *)
  checked world matches (apt_get_install ["postgresql-client"]);;
  (* Install sudo. *)
  checked world matches (apt_get_install ["sudo"]);;
  (* Clean up. *)
  if test_nonempty CLEAN_UP_INSTALLATION then
    checked world matches [lit "echo"; lit "Cleaning up installation..."];;
    checked world matches (lits ["apt-get"; "purge"; "-y"; "--auto-remove"]);;
    du ← expand matches [lit "du"; lit "-hs"; var DIRS];
    sort ← expand matches (lits ["sort"; "-h"]);
    r ← pipeline world [simple du; simple sort];
    errexit (LintMd.exit_code r);;
    checked world matches [lit "rm"; lit "-rf"; var DIRS]
  else
    checked world matches [lit "echo"; lit "No clean up installation"].

End Script.

End InstallOsPackages.

(** ** CmTask974: moving [dataframe_to_str] and [df_to_short_str] *)

Module CmTask974.
Import Bash.

Definition TARGET_REPO : string := "/Users/saggese/src/cmamp2".

Definition TARGET_BRANCH : string :=
  "CmTask972_Merge_dataframe_to_str_and_df_to_short_str_into_hpandas_2".

Definition replace_text_py : string := "./dev_scripts/replace_text.py".

(** A call of [replace_text.py] that moves [dataframe_to_str]. *)
Definition moves_dataframe_to_str (p : process) : Prop :=
  name p = Some replace_text_py /\
  words p !! 2%nat = Some "hprint.dataframe_to_str".

Section Script.

Variable world : list process -> process -> LintMd.reply.
Variable matches : list process -> string -> list string.

(** [#!/bin/bash -xe].  The line that should move [dataframe_to_str]
    begins with [SOURCE_REPO=CMTask974_run_script./dev_scripts/replace_text.py],
    one word of the form [NAME=value]: it is an assignment for the command
    made of the words that follow, whose name is [--old]. *)
Definition move_to_hpandas : script process unit :=
  let SOURCE_REPO := "CMTask974_run_script" in
  checked world matches [lit "cd"; var TARGET_REPO];;
  (* Create the branch with the changes. *)
  checked world matches [lit "git"; lit "checkout"; lit "-B"; var TARGET_BRANCH];;
  (* Clean up. *)
  checked world matches
    [lit "git"; lit "reset"; lit "--hard"; [Text "origin/"; Expansion TARGET_BRANCH]];;
  (* Apply manual changes. *)
  checked world matches
    [lit "git"; lit "merge"; lit "--no-commit"; [Text "origin/"; Expansion SOURCE_REPO]];;
  (* Move dataframe_to_str from hprint to hpandas. *)
  args ← expand matches
    (lits ["--old"; "hprint.dataframe_to_str";
           "--new"; "hpandas.dataframe_to_str";
           "--ext"; "py"]);
  r ← spawn world
    {| assigned := [("SOURCE_REPO",
                     "CMTask974_run_script./dev_scripts/replace_text.py")];
       words := args; stderr_to_stdout := false |};
  errexit (LintMd.exit_code r);;
  (* Move df_to_short_str from hprint to hpandas. *)
  checked world matches
    (lits [replace_text_py;
           "--old"; "hprint.df_to_short_str";
           "--new"; "hpandas.df_to_short_str";
           "--ext"; "py"]);;
  (* Add imports to affected files. *)
  files ← substitute world ["git"; "diff"; "--name-only"; "HEAD"];
  errexit (LintMd.exit_code files);;
  let FILES := LintMd.output files in
  checked world matches
    (lits [replace_text_py;
           "--old"; "import helpers.hprint as hprint";
           "--new"; "import helpers.hpandas as hpandas; import helpers.hprint as hprint";
           "--ext"; "py";
           "--only_files"; newlines_to_blanks FILES]);;
  (* Remove unused imports from affected files. *)
  checked world matches (lits ["invoke"; "lint"; "-m"; "--only-format"]).

End Script.

End CmTask974.

(** ** More about [lint_md.sh] *)

Module LintMdRun.
Import LintMd.

(** The substitutions of [USER="$(id -u $(logname)):$(id -g $(logname))"]
    whose status the shell drops: both [logname], nested in another
    substitution, and [id -u], which is not the last of the assignment. *)
Definition judged (inv : invocation) : Prop :=
  argv inv <> ["logname"] /\ take 2 (argv inv) <> ["id"; "-u"].

(** The commands that remove a file. *)
Definition removes (inv : invocation) : Prop := head (argv inv) = Some "rm".

End LintMdRun.

(** ** oms/notebooks/Master_trading_system_report.ipynb *)

Module TradingSystemReport.

(** JSON values as Python holds them once loaded; a dict keeps one value
    per key. *)
Inductive json :=
| JNull
| JBool (b : bool)
| JNumber (text : string)
| JString (s : string)
| JList (items : list json)
| JDict (items : list (string * json)).

Inductive exception :=
| IndexError
| KeyError (key : string)
| TypeError
| PandasError (what : string).

Inductive outcome (A : Type) :=
| Return (a : A)
| Raise (e : exception).
Arguments Return {A} a.
Arguments Raise {A} e.

Definition and_then {A B} (m : outcome A) (k : A -> outcome B) : outcome B :=
  match m with
  | Return a => k a
  | Raise e => Raise e
  end.

(** [balances[-1]] *)
Definition last_item {A} (l : list A) : outcome A :=
  match last l with
  | Some x => Return x
  | None => Raise IndexError
  end.

Fixpoint lookup_key (items : list (string * json)) (key : string)
    : option json :=
  match items with
  | [] => None
  | (k, v) :: rest => if decide (k = key) then Some v else lookup_key rest key
  end.

(** [value[key]] with a string key: only a dict can be asked. *)
Definition getitem (value : json) (key : string) : outcome json :=
  match value with
  | JDict items =>
      match lookup_key items key with
      | Some v => Return v
      | None => Raise (KeyError key)
      end
  | _ => Raise TypeError
  end.

Definition multiple_files_found : string :=
  "Multiple files found, using the balances from the latest run".

Section GetBalances.

(** What pandas does is left open: the construction of a data frame from
    a JSON value and the selection of columns, each of which may raise. *)
Context {frame : Type}.
Variable DataFrame : json -> outcome frame.
Variable select : frame -> list string -> outcome frame.

(** [get_balances], given what [ccxt_log.load_balances()] returned: the
    lines logged at INFO and the frame returned or the exception raised. *)
Definition get_balances (balances : list json)
    : list string * outcome frame :=
  (if bool_decide (1 < length balances)%nat then [multiple_files_found] else [],
   and_then (last_item balances) (fun latest =>
   and_then (getitem latest "info") (fun info =>
   and_then (getitem info "assets") (fun assets =>
   and_then (DataFrame assets) (fun balances_df =>
   select balances_df ["asset"; "walletBalance"]))))).

End GetBalances.

End TradingSystemReport.

(** * Properties *)

(** ** The shell fragment *)

Module ShellProps.
Import Shell.

Section Facts.

Variable stat : string -> bool.
Variable write : list string -> string -> bool.

Lemma exec_nil n σ : exec stat write (S n) [] σ = Some (Running σ).
Proof. reflexivity. Qed.

Lemma exec_cons n c rest σ :
  exec stat write (S n) (c :: rest) σ
  = exec_cmd stat write (exec stat write n) c σ ≫= and_then (exec stat write n) rest.
Proof. reflexivity. Qed.

(** A command that leaves status 0 hands over to the rest of the list. *)
Lemma exec_cons_ok n c rest σ σ' :
  exec_cmd stat write (exec stat write n) c σ = Some (Running σ') ->
  status σ' = 0 ->
  exec stat write (S n) (c :: rest) σ = exec stat write n rest σ'.
Proof.
  intros Hc Hs. rewrite exec_cons, Hc. cbn. rewrite Hs. cbn.
  by rewrite andb_false_r.
Qed.

(** More fuel never changes a result. *)
Lemma exec_mono n : forall m cs σ r,
  (n <= m)%nat -> exec stat write n cs σ = Some r -> exec stat write m cs σ = Some r.
Proof.
  induction n as [|n IH]; intros m cs σ r Hle H; [discriminate|].
  destruct m as [|m]; [lia|].
  assert (Hnm : (n <= m)%nat) by lia.
  destruct cs as [|c rest]; [exact H|].
  rewrite exec_cons in *.
  destruct (exec_cmd stat write (exec stat write n) c σ) as [o|] eqn:Hc; [|discriminate].
  assert (Hc' : exec_cmd stat write (exec stat write m) c σ = Some o).
  { destruct c; cbn in *; try exact Hc.
    - destruct (eval_test stat c σ) as [[] σ1]; [|exact Hc].
      by apply IH.
    - destruct (funs σ !! f); [|exact Hc].
      destruct (exec stat write n l (push_frame σ)) as [o'|] eqn:Hb; [|discriminate].
      by rewrite (IH m _ _ _ Hnm Hb). }
  rewrite Hc'. cbn in *. destruct o as [σ'|σ']; [|exact H].
  unfold and_then in *.
  destruct (errexit σ' && negb (status σ' =? 0)%Z); [exact H|].
  by apply IH.
Qed.

Lemma file_exists_empty : file_exists stat "" = false.
Proof. reflexivity. Qed.

(** [set -e] has teeth: a name that is no function ends the script with
    status 127 before the next command, and so does [local] outside a
    function with status 1. *)
Example unknown_command_exits :
  (fun o => (exit_status o, echoed (final o)))
    <$> run_script stat write 3
          [CSet_e; CCall "no_such_function"; CEcho_e [Lit "not reached"]] ∅
  = Some (127, []).
Proof. reflexivity. Qed.

Example local_outside_function_exits :
  (fun o => (exit_status o, echoed (final o)))
    <$> run_script stat write 3
          [CSet_e; CLocal "x" [Lit "1"]; CEcho_e [Lit "not reached"]] ∅
  = Some (1, []).
Proof. reflexivity. Qed.

(** Without [set -e] the same script goes on. *)
Example unknown_command_ignored :
  (fun o => (exit_status o, echoed (final o)))
    <$> run_script stat (fun _ _ => true) 3
          [CCall "no_such_function"; CEcho_e [Lit "reached"]] ∅
  = Some (0, ["reached"]).
Proof. reflexivity. Qed.

(** The body of an [if] is not exempt: an [echo] that cannot write ends
    the script with status 1, and without [set -e] it does not. *)
Example failed_echo_exits :
  (fun o => (exit_status o, echoed (final o)))
    <$> run_script stat (fun _ _ => false) 4
          [CSet_e; CIf (TNot (TExists [Lit ""])) [CEcho_e [Lit "warning"]];
           CCall "not_reached"] ∅
  = Some (1, []).
Proof. reflexivity. Qed.

Example failed_echo_ignored :
  (fun o => (exit_status o, echoed (final o)))
    <$> run_script stat (fun _ _ => false) 4
          [CIf (TNot (TExists [Lit ""])) [CEcho_e [Lit "warning"]];
           CCall "reached"] ∅
  = Some (127, []).
Proof. reflexivity. Qed.

Hypothesis can_write : writable write.

(** The conditional the two functions are made of. *)
Lemma exec_unless_exists n x w σ :
  exec_cmd stat write (exec stat write (S (S n))) (CIf (TNot (TExists [Var x])) [CEcho_e w]) σ
  = Some (Running (unless_exists stat x w σ)).
Proof.
  unfold unless_exists. cbn [exec_cmd eval_test].
  destruct (file_exists stat (expand σ [Var x])); cbn [negb].
  - do 2 f_equal. unfold with_status, echo_all, probe. cbn.
    by rewrite app_nil_r.
  - rewrite exec_cons. cbn. rewrite can_write. cbn. by rewrite andb_false_r.
Qed.

Lemma status_declare_local x v σ :
  frames σ <> [] -> status (declare_local x v σ) = 0.
Proof. unfold declare_local. by destruct (frames σ). Qed.

Lemma frames_declare_local x v σ :
  frames σ <> [] -> frames (declare_local x v σ) <> [].
Proof. unfold declare_local. by destruct (frames σ). Qed.

(** The shape both functions of the credential check have: two [local]
    paths, then one conditional per path. *)
Lemma exec_two_checks n a wa b wb x mx y my σ :
  frames σ <> [] ->
  let σ1 := declare_local a (expand σ wa) σ in
  let σ2 := declare_local b (expand σ1 wb) σ1 in
  let σ3 := unless_exists stat x mx σ2 in
  exec stat write (S (S (S (S (S (S n))))))
    [ CLocal a wa; CLocal b wb;
      CIf (TNot (TExists [Var x])) [CEcho_e mx];
      CIf (TNot (TExists [Var y])) [CEcho_e my] ] σ
  = Some (Running (unless_exists stat y my σ3)).
Proof.
  intros Hf σ1 σ2 σ3.
  rewrite (exec_cons_ok _ _ _ _ σ1); [|reflexivity|by apply status_declare_local].
  rewrite (exec_cons_ok _ _ _ _ σ2);
    [|reflexivity|by apply status_declare_local, frames_declare_local].
  rewrite (exec_cons_ok _ _ _ _ σ3); [|apply exec_unless_exists|reflexivity].
  rewrite (exec_cons_ok _ _ _ _ (unless_exists stat y my σ3));
    [|apply exec_unless_exists|reflexivity].
  apply exec_nil.
Qed.

(** Calling a defined function runs its body in a fresh frame. *)
Lemma exec_call n f body σ σ' :
  funs σ !! f = Some body ->
  exec stat write n body (push_frame σ) = Some (Running σ') ->
  exec_cmd stat write (exec stat write n) (CCall f) σ = Some (Running (pop_frame σ')).
Proof. intros Hf Hb. cbn. by rewrite Hf, Hb. Qed.

End Facts.

(** An environment that holds one variable, and not one that bash reads
    when it starts, leaves bash with its defaults. *)
Lemma default_startup_singleton (name value : string) :
  startup_variable name = false -> default_startup {[ name := value ]}.
Proof.
  intros Hv other Ho. apply lookup_singleton_None. intros <-. congruence.
Qed.

Lemma default_startup_home (h : string) :
  default_startup {[ "HOME" := h ]}.
Proof. by apply default_startup_singleton. Qed.

Lemma default_startup_empty : default_startup ∅.
Proof. intros name _. apply lookup_empty. Qed.

End ShellProps.

(** ** The credential check *)

Module CheckCredentialsProps.
Import Shell ShellProps CheckCredentials.

Section Run.

Variable stat : string -> bool.
Variable write : list string -> string -> bool.
Variable environ : gmap string string.

Lemma exec_prelude k rest :
  exec stat write (5 + k) ([ CSet_e;
      CAssign "AWS_VOLUME" [Var "HOME"; Lit "/.aws/"];
      CAssign "GSPREAD_PANDAS_VOLUME" [Var "HOME"; Lit "/.config/gspread_pandas/"];
      CFun "test_aws" test_aws;
      CFun "test_gspread_pandas" test_gspread_pandas ] ++ rest) (initial environ)
  = exec stat write k rest (prepared environ).
Proof.
  cbn [Nat.add app].
  do 5 (erewrite exec_cons_ok; [|reflexivity|reflexivity]).
  unfold prepared, aws_volume, gspread_pandas_volume, home.
  shell_simpl. reflexivity.
Qed.

Hypothesis can_write : writable write.

Lemma call_test_aws n :
  exec_cmd stat write (exec stat write (6 + n)) (CCall "test_aws")
    (prepared environ)
  = Some (Running (after_test_aws stat environ)).
Proof.
  apply exec_call with (body := test_aws); [reflexivity|].
  unfold test_aws. cbn [Nat.add].
  rewrite exec_two_checks by done.
  unfold aws_cred_file, aws_conf_file, prepared.
  shell_simpl. reflexivity.
Qed.

Lemma call_test_gspread_pandas n :
  exec_cmd stat write (exec stat write (6 + n)) (CCall "test_gspread_pandas")
    (after_test_aws stat environ)
  = Some (Running (after_test_gspread_pandas stat environ)).
Proof.
  apply exec_call with (body := test_gspread_pandas); [reflexivity|].
  unfold test_gspread_pandas. cbn [Nat.add].
  rewrite exec_two_checks by done.
  unfold google_secret_file, google_cred_file, after_test_aws, prepared.
  shell_simpl. reflexivity.
Qed.

Lemma run_script_final k :
  run_script stat write (14 + k) script environ
  = Some (Running (after_test_gspread_pandas stat environ)).
Proof.
  unfold run_script.
  change (exec stat write (14 + k) script (initial environ)) with
    (exec stat write (5 + (9 + k))
       ([ CSet_e;
          CAssign "AWS_VOLUME" [Var "HOME"; Lit "/.aws/"];
          CAssign "GSPREAD_PANDAS_VOLUME" [Var "HOME"; Lit "/.config/gspread_pandas/"];
          CFun "test_aws" test_aws;
          CFun "test_gspread_pandas" test_gspread_pandas ]
        ++ [CCall "test_aws"; CCall "test_gspread_pandas"]) (initial environ)).
  rewrite exec_prelude.
  change (9 + k)%nat with (S (6 + (2 + k))).
  rewrite (exec_cons_ok _ _ _ _ _ _ _ (call_test_aws _)) by reflexivity.
  change (6 + (2 + k))%nat with (S (6 + (1 + k))).
  rewrite (exec_cons_ok _ _ _ _ _ _ _ (call_test_gspread_pandas _)) by reflexivity.
  apply exec_nil.
Qed.

End Run.

(** Everything an observer sees of a run in which [echo] can write, for
    any disk and environment. *)
Lemma observe_final stat environ :
  errexit (after_test_gspread_pandas stat environ) = true /\
  status (after_test_gspread_pandas stat environ) = 0 /\
  probed (after_test_gspread_pandas stat environ) =
    [aws_cred_file environ; aws_conf_file environ;
     inherited_aws_cred_file environ; google_cred_file environ] /\
  echoed (after_test_gspread_pandas stat environ) =
    (warn_unless (file_exists stat (aws_cred_file environ))
       aws_failed (aws_cred_file environ) ++
     warn_unless (file_exists stat (aws_conf_file environ))
       aws_failed (aws_conf_file environ) ++
     warn_unless (file_exists stat (inherited_aws_cred_file environ))
       google_failed (google_secret_file environ) ++
     warn_unless (file_exists stat (google_cred_file environ))
       google_failed (google_cred_file environ))%list.
Proof.
  unfold after_test_gspread_pandas, after_test_aws, prepared,
    inherited_aws_cred_file, warn_unless, warning.
  shell_simpl.
  do 3 (split; [reflexivity|]).
  repeat match goal with
         | |- context [file_exists stat ?p] => destruct (file_exists stat p)
         end; reflexivity.
Qed.

(** The variables and frames at the end of such a run. *)
Lemma scopes_final stat environ :
  frames (after_test_gspread_pandas stat environ) = [] /\
  Forall (fun x => get_var (after_test_gspread_pandas stat environ) x
                   = environ !! x)
    ["_aws_cred_file"; "_aws_conf_file"; "_google_secret_file";
     "_google_cred_file"].
Proof.
  unfold after_test_gspread_pandas, after_test_aws, prepared.
  shell_simpl.
  split; [reflexivity|].
  repeat constructor; unfold get_var; shell_simpl; reflexivity.
Qed.

Lemma string_app_assoc (a b c : string) : (a +:+ b) +:+ c = a +:+ (b +:+ c).
Proof.
  induction a as [|x a IH]; [reflexivity|].
  change (String x ((a +:+ b) +:+ c) = String x (a +:+ (b +:+ c))).
  by rewrite IH.
Qed.

(** Two files in different places under one home are different paths. *)
Lemma under_home_ne (h d1 f1 d2 f2 : string) :
  d1 +:+ f1 <> d2 +:+ f2 -> (h +:+ d1) +:+ f1 <> (h +:+ d2) +:+ f2.
Proof.
  intros Hne Heq. apply Hne. rewrite !string_app_assoc in Heq.
  by apply (inj (String.app h)) in Heq.
Qed.

Lemma under_home_nonempty (h d f : string) :
  d <> "" -> (h +:+ d) +:+ f <> "".
Proof.
  intros Hd. destruct h as [|x h]; [|discriminate].
  destruct d as [|y d]; [done|discriminate].
Qed.

Lemma file_exists_under_home stat (h d f : string) :
  d <> "" -> file_exists stat ((h +:+ d) +:+ f) = stat ((h +:+ d) +:+ f).
Proof.
  intros Hd. unfold file_exists.
  destruct (decide ((h +:+ d) +:+ f = "")) as [He|]; [|reflexivity].
  by apply under_home_nonempty in He.
Qed.

Lemma prefix_app (p a b : string) :
  String.prefix p a = true -> String.prefix p (a +:+ b) = true.
Proof.
  revert p. induction a as [|x a IH]; intros [|y p]; try done.
  - by destruct b.
  - change (String x a +:+ b) with (String x (a +:+ b)). cbn.
    destruct (Ascii.ascii_dec y x); [apply IH|done].
Qed.

Lemma all_warnings found prefix path :
  is_warning prefix = true ->
  Forall (fun line => is_warning line = true) (warn_unless found prefix path).
Proof.
  intros Hp. destruct found; constructor; [|constructor].
  by apply prefix_app.
Qed.

Lemma string_length_app (a b : string) :
  String.length (a +:+ b) = (String.length a + String.length b)%nat.
Proof.
  induction a as [|x a IH]; [reflexivity|].
  change (String x a +:+ b) with (String x (a +:+ b)).
  cbn [String.length]. by rewrite IH.
Qed.

(** Appending is cancellative on the right as well. *)
Lemma string_app_inj_r (a b c : string) : a +:+ c = b +:+ c -> a = b.
Proof.
  revert b. induction a as [|x a IH]; intros [|y b] H.
  - reflexivity.
  - exfalso. apply (f_equal String.length) in H.
    rewrite !string_length_app in H. cbn [String.length] in H. lia.
  - exfalso. apply (f_equal String.length) in H.
    rewrite !string_length_app in H. cbn [String.length] in H. lia.
  - change (String x (a +:+ c) = String y (b +:+ c)) in H.
    injection H as -> H. f_equal. by apply IH.
Qed.

(** A warning names its file: two warnings of one function are the same
    line only for the same path, and the two functions never write the
    same line. *)
Lemma warning_inj prefix p q : warning prefix p = warning prefix q -> p = q.
Proof.
  unfold warning. intros H. apply string_app_inj_r with (c := " file.").
  apply (inj (String.app prefix)), H.
Qed.

Lemma warning_aws_google p q : warning aws_failed p <> warning google_failed q.
Proof.
  unfold warning. generalize (p +:+ " file.") (q +:+ " file.").
  intros a b H. vm_compute in H. discriminate.
Qed.

Lemma elem_of_warn_unless found prefix p line :
  line ∈ warn_unless found prefix p <-> found = false /\ line = warning prefix p.
Proof.
  destruct found; cbn.
  - rewrite elem_of_nil. split; [done|]. by intros [? _].
  - rewrite list_elem_of_singleton. split; [done|]. by intros [_ ?].
Qed.

(** C10.  Started with its default options and with a standard output
    that can be written, the credential check runs to its last command and
    exits with status 0 whatever the disk holds: [set -e] is in effect and
    never leaves the script early, and what it echoes is one WARNING for
    every path it tests and does not find, in the order of the tests, and
    nothing else. *)
Theorem credential_check_exits_zero
    (stat : string -> bool) (write : list string -> string -> bool)
    (environ : gmap string string) (k : nat) :
  default_startup environ ->
  writable write ->
  exists σ,
    run_script stat write (14 + k) script environ = Some (Running σ) /\
    errexit σ = true /\
    exit_status (Running σ) = 0 /\
    echoed σ =
      (warn_unless (stat (aws_cred_file environ))
         aws_failed (aws_cred_file environ) ++
       warn_unless (stat (aws_conf_file environ))
         aws_failed (aws_conf_file environ) ++
       warn_unless (file_exists stat (inherited_aws_cred_file environ))
         google_failed (google_secret_file environ) ++
       warn_unless (stat (google_cred_file environ))
         google_failed (google_cred_file environ))%list /\
    Forall (fun line => is_warning line = true) (echoed σ).
Proof.
  intros _ Hw.
  exists (after_test_gspread_pandas stat environ).
  split; [by apply run_script_final|].
  destruct (observe_final stat environ) as (Hx & Hs & _ & He).
  split; [exact Hx|]. split; [exact Hs|]. rewrite He.
  unfold aws_cred_file, aws_conf_file, google_cred_file, aws_volume,
    gspread_pandas_volume.
  rewrite !file_exists_under_home by done.
  split; [reflexivity|].
  repeat (apply Forall_app; split); by apply all_warnings.
Qed.

(** No file anywhere and a home of [/home/user]: four warnings, status 0. *)
Lemma credential_check_exits_zero_witness :
  let stat := fun _ : string => false in
  let write := fun (_ : list string) (_ : string) => true in
  let environ : gmap string string := {[ "HOME" := "/home/user" ]} in
  default_startup environ /\
  writable write /\
  exists σ,
    run_script stat write 14 script environ = Some (Running σ) /\
    errexit σ = true /\
    exit_status (Running σ) = 0 /\
    echoed σ =
      (warn_unless (stat (aws_cred_file environ))
         aws_failed (aws_cred_file environ) ++
       warn_unless (stat (aws_conf_file environ))
         aws_failed (aws_conf_file environ) ++
       warn_unless (file_exists stat (inherited_aws_cred_file environ))
         google_failed (google_secret_file environ) ++
       warn_unless (stat (google_cred_file environ))
         google_failed (google_cred_file environ))%list /\
    Forall (fun line => is_warning line = true) (echoed σ).
Proof.
  intros stat write environ.
  assert (Hd : default_startup environ) by apply default_startup_home.
  assert (Hw : writable write) by (intros out line; reflexivity).
  split; [exact Hd|]. split; [exact Hw|].
  exact (credential_check_exits_zero stat write environ 0 Hd Hw).
Defined.

(** With standard output closed the first warning cannot be echoed, and
    under [set -e] the failed [echo] ends the script with status 1 after
    the first test: a missing file does lead to a non-zero exit. *)
Lemma closed_output_exits_one :
  let stat := fun _ : string => false in
  let write := fun (_ : list string) (_ : string) => false in
  let environ : gmap string string := {[ "HOME" := "/home/user" ]} in
  exists σ,
    run_script stat write 14 script environ = Some (Exited σ) /\
    exit_status (Exited σ) = 1 /\
    probed σ = [aws_cred_file environ] /\
    echoed σ = [].
Proof.
  intros stat write environ. eexists.
  split; [vm_compute; reflexivity|].
  split; [reflexivity|]. split; vm_compute; reflexivity.
Qed.

(** C8.  Started with its default options, with a standard output that
    can be written and in an environment that does not export
    [_aws_cred_file], the first conditional of [test_gspread_pandas] tests
    the empty path, so the warning about [google_secret.json] is echoed
    whatever the disk holds, and the path of [google_secret.json] is never
    tested. *)
Theorem google_secret_never_checked
    (stat : string -> bool) (write : list string -> string -> bool)
    (environ : gmap string string) (k : nat) :
  default_startup environ ->
  writable write ->
  environ !! "_aws_cred_file" = None ->
  exists σ,
    run_script stat write (14 + k) script environ = Some (Running σ) /\
    probed σ = [aws_cred_file environ; aws_conf_file environ; "";
                google_cred_file environ] /\
    warning google_failed (google_secret_file environ) ∈ echoed σ /\
    google_secret_file environ ∉ probed σ.
Proof.
  intros _ Hw Hunset.
  exists (after_test_gspread_pandas stat environ).
  split; [by apply run_script_final|].
  destruct (observe_final stat environ) as (_ & _ & Hp & He).
  rewrite Hp, He.
  unfold inherited_aws_cred_file. rewrite Hunset. cbn [default from_option id].
  rewrite file_exists_empty.
  split; [reflexivity|]. split.
  - cbn [warn_unless]. rewrite !elem_of_app. right. right. left.
    apply list_elem_of_singleton. reflexivity.
  - rewrite !not_elem_of_cons. repeat split.
    + by apply under_home_ne.
    + by apply under_home_ne.
    + by apply under_home_nonempty.
    + by apply under_home_ne.
    + apply not_elem_of_nil.
Qed.

(** With every file present, [google_secret.json] included, the warning
    about it is still echoed. *)
Lemma google_secret_never_checked_witness :
  let stat := fun _ : string => true in
  let write := fun (_ : list string) (_ : string) => true in
  let environ : gmap string string := {[ "HOME" := "/home/user" ]} in
  default_startup environ /\
  writable write /\
  environ !! "_aws_cred_file" = None /\
  exists σ,
    run_script stat write 14 script environ = Some (Running σ) /\
    probed σ = [aws_cred_file environ; aws_conf_file environ; "";
                google_cred_file environ] /\
    warning google_failed (google_secret_file environ) ∈ echoed σ /\
    google_secret_file environ ∉ probed σ.
Proof.
  intros stat write environ.
  assert (Hd : default_startup environ) by apply default_startup_home.
  assert (Hw : writable write) by (intros out line; reflexivity).
  assert (Hu : environ !! "_aws_cred_file" = None) by reflexivity.
  split; [exact Hd|]. split; [exact Hw|]. split; [exact Hu|].
  exact (google_secret_never_checked stat write environ 0 Hd Hw Hu).
Defined.

(** An environment that exports [_aws_cred_file] with the path of a file
    that exists: [google_secret.json] is missing, like every credential
    file, and the warning about it is the one that is not echoed. *)
Lemma exported_aws_cred_file_silences_warning :
  let stat := fun p : string => bool_decide (p = "/etc/passwd") in
  let write := fun (_ : list string) (_ : string) => true in
  let environ : gmap string string :=
    <["_aws_cred_file" := "/etc/passwd"]> {[ "HOME" := "/home/user" ]} in
  stat (google_secret_file environ) = false /\
  exists σ,
    run_script stat write 14 script environ = Some (Running σ) /\
    echoed σ = [ warning aws_failed (aws_cred_file environ);
                 warning aws_failed (aws_conf_file environ);
                 warning google_failed (google_cred_file environ) ] /\
    warning google_failed (google_secret_file environ) ∉ echoed σ.
Proof.
  intros stat write environ.
  split; [vm_compute; reflexivity|].
  eexists. split; [vm_compute; reflexivity|].
  split; [vm_compute; reflexivity|].
  cbn [echoed]. rewrite !not_elem_of_cons.
  repeat split; [..|apply not_elem_of_nil];
    intros H; vm_compute in H; discriminate H.
Qed.

End CheckCredentialsProps.

(** ** The credential check, path by path *)

Module CheckCredentialsRunProps.
Import Shell ShellProps CheckCredentials CheckCredentialsProps.

(** X1.  The three conditionals that test the path they name are exact: in
    a shell started with its default options and with a standard output
    that can be written, the warning about [credentials], [config] and
    [creds/default] is echoed when and only when that file is missing,
    whatever else is on the disk. *)
Theorem three_checks_are_exact
    (stat : string -> bool) (write : list string -> string -> bool)
    (environ : gmap string string) (k : nat) :
  default_startup environ ->
  writable write ->
  exists σ,
    run_script stat write (14 + k) script environ = Some (Running σ) /\
    (warning aws_failed (aws_cred_file environ) ∈ echoed σ
       <-> stat (aws_cred_file environ) = false) /\
    (warning aws_failed (aws_conf_file environ) ∈ echoed σ
       <-> stat (aws_conf_file environ) = false) /\
    (warning google_failed (google_cred_file environ) ∈ echoed σ
       <-> stat (google_cred_file environ) = false).
Proof.
  intros _ Hw.
  exists (after_test_gspread_pandas stat environ).
  split; [by apply run_script_final|].
  destruct (observe_final stat environ) as (_ & _ & _ & He). rewrite He.
  assert (Hcc : aws_cred_file environ <> aws_conf_file environ)
    by (by apply under_home_ne).
  assert (Hsg : google_secret_file environ <> google_cred_file environ)
    by (by apply under_home_ne).
  assert (H1 : file_exists stat (aws_cred_file environ)
               = stat (aws_cred_file environ))
    by (by apply file_exists_under_home).
  assert (H2 : file_exists stat (aws_conf_file environ)
               = stat (aws_conf_file environ))
    by (by apply file_exists_under_home).
  assert (H3 : file_exists stat (google_cred_file environ)
               = stat (google_cred_file environ))
    by (by apply file_exists_under_home).
  rewrite <- H1, <- H2, <- H3.
  rewrite !elem_of_app, !elem_of_warn_unless.
  pose proof (warning_aws_google (aws_cred_file environ) (google_secret_file environ)).
  pose proof (warning_aws_google (aws_cred_file environ) (google_cred_file environ)).
  pose proof (warning_aws_google (aws_conf_file environ) (google_secret_file environ)).
  pose proof (warning_aws_google (aws_conf_file environ) (google_cred_file environ)).
  pose proof (@warning_inj aws_failed (aws_cred_file environ) (aws_conf_file environ)).
  pose proof (@warning_inj aws_failed (aws_conf_file environ) (aws_cred_file environ)).
  pose proof (@warning_inj google_failed (google_cred_file environ) (google_secret_file environ)).
  repeat split; intuition (first [done | exfalso; eauto]).
Qed.

(** Only [config] is there. *)
Lemma three_checks_are_exact_witness :
  let write := fun (_ : list string) (_ : string) => true in
  let environ : gmap string string := {[ "HOME" := "/home/user" ]} in
  let stat := fun p : string => bool_decide (p = aws_conf_file environ) in
  default_startup environ /\
  writable write /\
  exists σ,
    run_script stat write 14 script environ = Some (Running σ) /\
    (warning aws_failed (aws_cred_file environ) ∈ echoed σ
       <-> stat (aws_cred_file environ) = false) /\
    (warning aws_failed (aws_conf_file environ) ∈ echoed σ
       <-> stat (aws_conf_file environ) = false) /\
    (warning google_failed (google_cred_file environ) ∈ echoed σ
       <-> stat (google_cred_file environ) = false).
Proof.
  intros write environ stat.
  assert (Hd : default_startup environ) by apply default_startup_home.
  assert (Hw : writable write) by (intros out line; reflexivity).
  split; [exact Hd|]. split; [exact Hw|].
  exact (three_checks_are_exact stat write environ 0 Hd Hw).
Defined.

(** X2.  What decides the warning about [google_secret.json] is the variable
    the conditional reads: in a shell started with its default options and
    with a standard output that can be written, the warning is echoed
    exactly when no file exists at the inherited value of [_aws_cred_file]
    (none at all when the variable is unset or empty).  An environment that
    exports [_aws_cred_file] with the path of an existing file silences the
    warning even when [google_secret.json] is missing. *)
Theorem google_secret_warning_follows_environment
    (stat : string -> bool) (write : list string -> string -> bool)
    (environ : gmap string string) (k : nat) :
  default_startup environ ->
  writable write ->
  exists σ,
    run_script stat write (14 + k) script environ = Some (Running σ) /\
    (warning google_failed (google_secret_file environ) ∈ echoed σ
       <-> file_exists stat (inherited_aws_cred_file environ) = false).
Proof.
  intros _ Hw.
  exists (after_test_gspread_pandas stat environ).
  split; [by apply run_script_final|].
  destruct (observe_final stat environ) as (_ & _ & _ & He). rewrite He.
  rewrite !elem_of_app, !elem_of_warn_unless.
  pose proof (warning_aws_google (aws_cred_file environ) (google_secret_file environ)).
  pose proof (warning_aws_google (aws_conf_file environ) (google_secret_file environ)).
  pose proof (@warning_inj google_failed (google_secret_file environ) (google_cred_file environ)).
  assert (google_secret_file environ <> google_cred_file environ)
    by (by apply under_home_ne).
  intuition (first [done | exfalso; eauto]).
Qed.

(** [_aws_cred_file] exported with the path of the only file there is. *)
Lemma google_secret_warning_follows_environment_witness :
  let stat := fun p : string => bool_decide (p = "/etc/passwd") in
  let write := fun (_ : list string) (_ : string) => true in
  let environ : gmap string string := {[ "_aws_cred_file" := "/etc/passwd" ]} in
  default_startup environ /\
  writable write /\
  exists σ,
    run_script stat write 14 script environ = Some (Running σ) /\
    (warning google_failed (google_secret_file environ) ∈ echoed σ
       <-> file_exists stat (inherited_aws_cred_file environ) = false).
Proof.
  intros stat write environ.
  assert (Hd : default_startup environ)
    by (by apply default_startup_singleton).
  assert (Hw : writable write) by (intros out line; reflexivity).
  split; [exact Hd|]. split; [exact Hw|].
  exact (google_secret_warning_follows_environment stat write environ 0 Hd Hw).
Defined.

(** X3.  The [local] variables of the two functions are gone when they
    return: after a run in a shell started with its default options and
    with a standard output that can be written, no call frame is left, and
    each of the four names holds what the environment gave it, nothing if
    it was not exported, whatever path its function had put there. *)
Theorem locals_do_not_outlive_their_function
    (stat : string -> bool) (write : list string -> string -> bool)
    (environ : gmap string string) (k : nat) :
  default_startup environ ->
  writable write ->
  exists σ,
    run_script stat write (14 + k) script environ = Some (Running σ) /\
    frames σ = [] /\
    Forall (fun x => get_var σ x = environ !! x)
      ["_aws_cred_file"; "_aws_conf_file"; "_google_secret_file";
       "_google_cred_file"].
Proof.
  intros _ Hw.
  exists (after_test_gspread_pandas stat environ).
  split; [by apply run_script_final|].
  apply scopes_final.
Qed.

Lemma locals_do_not_outlive_their_function_witness :
  let stat := fun _ : string => false in
  let write := fun (_ : list string) (_ : string) => true in
  let environ : gmap string string := {[ "HOME" := "/home/user" ]} in
  default_startup environ /\
  writable write /\
  exists σ,
    run_script stat write 14 script environ = Some (Running σ) /\
    frames σ = [] /\
    Forall (fun x => get_var σ x = environ !! x)
      ["_aws_cred_file"; "_aws_conf_file"; "_google_secret_file";
       "_google_cred_file"].
Proof.
  intros stat write environ.
  assert (Hd : default_startup environ) by apply default_startup_home.
  assert (Hw : writable write) by (intros out line; reflexivity).
  split; [exact Hd|]. split; [exact Hw|].
  exact (locals_do_not_outlive_their_function stat write environ 0 Hd Hw).
Defined.

End CheckCredentialsRunProps.

(** ** dev_scripts/lint_md.sh *)

Module LintMdProps.
Import LintMd.

Section Monad.

Context {A B : Type}.


Lemma emits_bind Q (m : sh A) (k : A -> sh B) :
  emits Q m -> (forall a, emits Q (k a)) -> emits Q (m ≫= k).
Proof.
  intros Hm Hk t Ht. specialize (Hm t Ht).
  unfold mbind, sh_bind. destruct (m t) as [t1 [a|c]]; [by apply Hk|done].
Qed.




End Monad.

Section Script.

Variable world : list invocation -> invocation -> reply.
Variable matches : string -> list string.

Lemma emits_ret {A} Q (a : A) : emits Q (mret a).
Proof. by intros t Ht. Qed.

Lemma emits_errexit Q code : emits Q (errexit code).
Proof. intros t Ht. unfold errexit. by destruct (Z.eqb code 0). Qed.

Lemma emits_spawn (Q : invocation -> Prop) inv : Q inv -> emits Q (spawn world inv).
Proof. intros HQ t Ht. apply Forall_app; split; [done|by constructor]. Qed.

Lemma emits_run (Q : invocation -> Prop) inv : Q inv -> emits Q (run world inv).
Proof.
  intros HQ. apply emits_bind; [by apply emits_spawn|].
  intros r. apply emits_errexit.
Qed.

Lemma emits_substitute (Q : invocation -> Prop) words :
  Q (command words) -> emits Q (substitute world words).
Proof.
  intros HQ. apply emits_bind; [by apply emits_spawn|].
  intros r. apply emits_ret.
Qed.







End Script.

(** When [docker build] fails the script stops there: two commands were
    started and the shell leaves with the status of the build. *)
Example build_failure_stops_script :
  let world := fun (_ : list invocation) (inv : invocation) =>
    {| exit_code := if is_docker_build (argv inv) then 1 else 0;
       output := "" |} in
  (fun r => (argv <$> r.1, r.2))
    (run_lint_md world (fun _ => []) ["README.md"])
  = ([ ["cat"];
       ["docker"; "build"; "-f"; "/tmp/tmp.lint_markdown.Dockerfile";
        "-t"; "sorrentum_mdlint"; "."] ],
     Abort 1).
Proof. vm_compute. reflexivity. Qed.

(** The command line of [docker run] when everything succeeds and
    [realpath .] answers [/src]. *)
Example docker_run_command_line :
  let world := fun (_ : list invocation) (inv : invocation) =>
    {| exit_code := 0; output := "/src
" |} in
  (argv <$> (run_lint_md world (fun _ => []) ["a.md"; "b.md"]).1) !! 9%nat
  = Some ["docker"; "run"; "--rm"; "-it"; "--workdir"; "/src"; "--mount";
          "type=bind,source=/src,target=/src"; "markdownlint:latest";
          "bash"; "-c"; "./run_linter.sh"; "a.md"; "b.md"].
Proof. vm_compute. reflexivity. Qed.


End LintMdProps.

(** ** Scripts that only start commands *)

Module BashProps.
Import LintMd Bash.

Section Logic.

Context {E : Type}.

Lemma wp_ret {A} (a : A) Q F (t : list E) : Q a t -> wp (mret a) Q F t.
Proof. done. Qed.

Lemma wp_bind {A B} (m : script E A) (k : A -> script E B) Q F t :
  wp m (fun a t' => wp (k a) Q F t') F t -> wp (m ≫= k) Q F t.
Proof. unfold wp, mbind, script_bind. by destruct (m t) as [t' [a|c]]. Qed.

Lemma wp_run {A} (m : script E A) Q F t :
  wp m Q F t ->
  match (m t).2 with
  | Ok a => Q a (m t).1
  | Abort c => F c (m t).1
  end.
Proof. unfold wp. by destruct (m t) as [t' [a|c]]. Qed.

Lemma wp_mono {A} (m : script E A) (Q Q' : A -> _) (F F' : Z -> _) t :
  wp m Q F t ->
  (forall a t', Q a t' -> Q' a t') ->
  (forall c t', F c t' -> F' c t') ->
  wp m Q' F' t.
Proof. unfold wp. destruct (m t) as [t' [a|c]]; eauto. Qed.

Lemma always_ret {A} P (a : A) : always (E := E) P (mret a).
Proof. by intros t Ht. Qed.

Lemma always_bind {A B} P (m : script E A) (k : A -> script E B) :
  always P m -> (forall a, always P (k a)) -> always P (m ≫= k).
Proof.
  intros Hm Hk t Ht. specialize (Hm t Ht).
  unfold mbind, script_bind. destruct (m t) as [t1 [a|c]]; [by apply Hk|done].
Qed.

Variable world : list E -> E -> reply.
Variable judged : E -> Prop.

Lemma all_succeeded_nil : all_succeeded world judged [].
Proof. intros [|] ? ? ?; discriminate. Qed.

(** One more command: judged and successful, or not judged. *)
Lemma all_succeeded_snoc t e :
  all_succeeded world judged t ->
  (judged e -> exit_code (world t e) = 0) ->
  all_succeeded world judged (t ++ [e]).
Proof.
  intros Ht He t0 e' t1 Heq Hj.
  destruct t1 as [|x t1 _] using rev_ind.
  - apply app_inj_tail in Heq as [<- <-]. by apply He.
  - rewrite app_comm_cons, app_assoc in Heq.
    apply app_inj_tail in Heq as [-> _]. by eapply Ht.
Qed.

Lemma disciplined_ret {A} (a : A) : disciplined world judged (mret a).
Proof. by intros t Ht. Qed.

Lemma disciplined_bind {A B} (m : script E A) (k : A -> script E B) :
  disciplined world judged m ->
  (forall a, disciplined world judged (k a)) ->
  disciplined world judged (m ≫= k).
Proof.
  intros Hm Hk t Ht. apply wp_bind.
  eapply wp_mono; [apply Hm, Ht| |done].
  intros a t' Ht'. by apply Hk.
Qed.

(** A script that keeps the discipline from any point keeps it as a
    whole. *)
Lemma disciplined_run {A} (m : script E A) :
  disciplined world judged m -> stops_at_first_failure world judged (m []).
Proof.
  intros Hm. specialize (Hm [] all_succeeded_nil).
  apply wp_run in Hm. unfold stops_at_first_failure.
  by destruct ((m []).2).
Qed.

(** In a run that keeps the discipline, going on and the success of
    every judged command are the same thing. *)
Lemma stops_at_first_failure_ok {A} (r : list E * result A) :
  stops_at_first_failure world judged r ->
  (exists a, r.2 = Ok a) <-> all_succeeded world judged r.1.
Proof.
  unfold stops_at_first_failure. destruct r as [t [a|c]]; cbn.
  - intros Ht. split; [done|eauto].
  - intros (Hc & t0 & e & -> & Hj & He & _). split; [by intros [? ?]|].
    intros Hall. destruct Hc. rewrite <- He.
    by apply (Hall t0 e []).
Qed.

End Logic.

(** *** Words *)

Lemma string_app_nil_r (s : string) : s +:+ "" = s.
Proof.
  induction s as [|c s IH]; [reflexivity|].
  change (String c (s +:+ "") = String c s). by rewrite IH.
Qed.

Lemma split_word_lit s : split_word (lit s) = [(s, false)].
Proof. reflexivity. Qed.

(** Splitting at work: the first field of an expansion joins the text
    before it unless the expansion begins with a blank; an empty expansion
    is no word at all while empty quoted text is one; a pattern character
    counts when it comes from an expansion. *)
Example split_text_then_expansion :
  split_word [Text "PYTHON VERSION="; Expansion "Python 3.8.10"]
  = [("PYTHON VERSION=Python", false); ("3.8.10", false)].
Proof. reflexivity. Qed.

Example split_leading_blank :
  split_word [Text "a"; Expansion " b"] = [("a", false); ("b", false)].
Proof. reflexivity. Qed.

Example split_empty :
  split_word [Expansion ""] = [] /\ split_word [Text ""] = [("", false)].
Proof. by split. Qed.

Example split_pattern :
  split_word [Expansion "/root/.cache /tmp/*"]
  = [("/root/.cache", false); ("/tmp/*", true)] /\
  split_word [Text "/tmp/*"] = [("/tmp/*", false)].
Proof. by split. Qed.

Lemma fields_of_nil found : fields_of found [] = [].
Proof. reflexivity. Qed.

Lemma fields_of_cons found w ws :
  fields_of found (w :: ws)
  = (split_word w ≫= glob_field found) ++ fields_of found ws.
Proof. reflexivity. Qed.

Lemma fields_of_app found ws1 ws2 :
  fields_of found (ws1 ++ ws2) = fields_of found ws1 ++ fields_of found ws2.
Proof. apply bind_app. Qed.

(** Quoted text is one word whatever it holds. *)
Lemma fields_of_lit found s ws :
  fields_of found (lit s :: ws) = s :: fields_of found ws.
Proof. reflexivity. Qed.

Lemma fields_of_lits found l : fields_of found (lits l) = l.
Proof.
  induction l as [|s l IH]; [reflexivity|].
  change (lits (s :: l)) with (lit s :: lits l).
  by rewrite fields_of_lit, IH.
Qed.

(** A plain expansion goes into the field in progress as it is. *)
Lemma split_expansion_plain s : forall r g,
  plain s = true ->
  split_expansion (Some (r, g)) s = ([], Some (r +:+ s, g)).
Proof.
  induction s as [|c s IH]; intros r g Hp.
  - cbn. by rewrite string_app_nil_r.
  - cbn in Hp. apply andb_prop in Hp as [Hc Hs].
    apply andb_prop in Hc as [Hi Hg].
    apply negb_true_iff in Hi, Hg.
    cbn [split_expansion push]. rewrite Hi, Hg, orb_false_r, IH by done.
    by rewrite CheckCredentialsProps.string_app_assoc.
Qed.

Lemma split_expansion_plain_None s :
  plain s = true -> s <> "" ->
  split_expansion None s = ([], Some (s, false)).
Proof.
  destruct s as [|c s]; [done|]. intros Hp _.
  cbn in Hp. apply andb_prop in Hp as [Hc Hs].
  apply andb_prop in Hc as [Hi Hg].
  apply negb_true_iff in Hi, Hg.
  cbn [split_expansion push]. rewrite Hi, Hg.
  by rewrite split_expansion_plain.
Qed.

(** A plain expansion that stands alone is one word, or none when it is
    empty. *)
Lemma fields_of_var_plain found s ws :
  plain s = true -> s <> "" ->
  fields_of found (var s :: ws) = s :: fields_of found ws.
Proof.
  intros Hp Hs. rewrite fields_of_cons. unfold split_word, var.
  cbn [split_segments]. rewrite split_expansion_plain_None by done.
  reflexivity.
Qed.

(** A plain expansion followed by text is one word, the two joined. *)
Lemma fields_of_plain_then_text found s l ws :
  plain s = true ->
  fields_of found ([Expansion s; Text l] :: ws)
  = (s +:+ l) :: fields_of found ws.
Proof.
  intros Hp. rewrite fields_of_cons. unfold split_word.
  destruct s as [|c s]; [reflexivity|].
  cbn [split_segments]. rewrite split_expansion_plain_None by done.
  reflexivity.
Qed.

(** Text followed by a plain expansion likewise. *)
Lemma fields_of_text_then_plain found l s ws :
  plain s = true ->
  fields_of found ([Text l; Expansion s] :: ws)
  = (l +:+ s) :: fields_of found ws.
Proof.
  intros Hp. rewrite fields_of_cons. unfold split_word.
  cbn [split_segments add_text]. rewrite split_expansion_plain by done.
  reflexivity.
Qed.

Lemma plain_app a b : plain (a +:+ b) = plain a && plain b.
Proof.
  induction a as [|c a IH]; [reflexivity|].
  change (String c a +:+ b) with (String c (a +:+ b)).
  cbn [plain]. rewrite IH. by rewrite andb_assoc.
Qed.

(** A plain expansion, a blank, and more: the plain part closes the field
    in progress. *)
Lemma split_expansion_plain_blank a b : forall r g,
  plain a = true ->
  split_expansion (Some (r, g)) (a +:+ String " " b)
  = ((r +:+ a, g) :: (split_expansion None b).1, (split_expansion None b).2).
Proof.
  induction a as [|c a IH]; intros r g Hp.
  - change ("" +:+ String " " b) with (String " " b).
    cbn [split_expansion is_ifs flush app]. rewrite string_app_nil_r.
    by destruct (split_expansion None b).
  - cbn in Hp. apply andb_prop in Hp as [Hc Hs].
    apply andb_prop in Hc as [Hi Hg].
    apply negb_true_iff in Hi, Hg.
    change (String c a +:+ String " " b) with (String c (a +:+ String " " b)).
    cbn [split_expansion push]. rewrite Hi, Hg, orb_false_r, IH by done.
    by rewrite CheckCredentialsProps.string_app_assoc.
Qed.

Lemma split_expansion_plain_blank_None a b :
  plain a = true -> a <> "" ->
  split_expansion None (a +:+ String " " b)
  = ((a, false) :: (split_expansion None b).1, (split_expansion None b).2).
Proof.
  destruct a as [|c a]; [done|]. intros Hp _.
  cbn in Hp. apply andb_prop in Hp as [Hc Hs].
  apply andb_prop in Hc as [Hi Hg].
  apply negb_true_iff in Hi, Hg.
  change (String c a +:+ String " " b) with (String c (a +:+ String " " b)).
  cbn [split_expansion push]. rewrite Hi, Hg.
  by rewrite split_expansion_plain_blank.
Qed.

(** An option and its value in one variable, both plain: two words. *)
Lemma fields_of_var_two found a b ws :
  plain a = true -> a <> "" -> plain b = true -> b <> "" ->
  fields_of found (var (a +:+ String " " b) :: ws)
  = a :: b :: fields_of found ws.
Proof.
  intros Ha Ha' Hb Hb'. rewrite fields_of_cons. unfold split_word, var.
  cbn [split_segments].
  rewrite split_expansion_plain_blank_None, split_expansion_plain_None by done.
  reflexivity.
Qed.

Section Machine.

Variable world : list process -> process -> reply.
Variable matches : list process -> string -> list string.

Lemma wp_spawn p (Q : reply -> _) F t :
  Q (world t p) (t ++ [p]) -> wp (spawn world p) Q F t.
Proof. done. Qed.

Lemma wp_errexit code (Q : unit -> list process -> Prop) F t :
  (code = 0 -> Q tt t) -> (code <> 0 -> F code t) -> wp (errexit code) Q F t.
Proof.
  intros HQ HF. unfold wp, errexit.
  destruct (Z.eqb_spec code 0); [by apply HQ|by apply HF].
Qed.

Lemma wp_substitute ws (Q : reply -> _) F t :
  Q {| exit_code := exit_code (world t (simple ws));
       output := strip_trailing_newlines (output (world t (simple ws))) |}
    (t ++ [simple ws]) ->
  wp (substitute world ws) Q F t.
Proof. done. Qed.

Lemma wp_expand ws (Q : list string -> _) F t :
  (forall args, args = fields_of (matches t) ws -> Q args t) ->
  wp (expand matches ws) Q F t.
Proof. intros H. by apply H. Qed.

Lemma wp_command ws (Q : reply -> _) F t :
  (forall p, p = simple (fields_of (matches t) ws) ->
     Q (world t p) (t ++ [p])) ->
  wp (command world matches ws) Q F t.
Proof. intros H. by apply H. Qed.

Lemma wp_checked ws (Q : unit -> _) F t :
  (forall p, p = simple (fields_of (matches t) ws) ->
     (exit_code (world t p) = 0 -> Q tt (t ++ [p])) /\
     (exit_code (world t p) <> 0 -> F (exit_code (world t p)) (t ++ [p]))) ->
  wp (checked world matches ws) Q F t.
Proof.
  intros H. apply wp_bind, wp_command. intros p Hp.
  destruct (H p Hp). by apply wp_errexit.
Qed.

Lemma wp_piped p1 p2 (Q : reply -> _) F t :
  Q (world (t ++ [p1]) p2) ((t ++ [p1]) ++ [p2]) ->
  wp (pipeline world [p1; p2]) Q F t.
Proof. done. Qed.

(** *** Every event satisfies a property *)

Lemma always_piped (P : process -> Prop) p1 p2 :
  P p1 -> P p2 -> always P (pipeline world [p1; p2]).
Proof.
  intros H1 H2 t Ht. cbn. repeat (apply Forall_app; split); by repeat constructor.
Qed.

Lemma always_expand_bind (P : process -> Prop) ws {B}
    (k : list string -> script process B) :
  (forall found, always P (k (fields_of found ws))) ->
  always P (expand matches ws ≫= k).
Proof. intros Hk t Ht. by apply (Hk (matches t) t). Qed.

Lemma always_spawn (P : process -> Prop) p : P p -> always P (spawn world p).
Proof. intros Hp t Ht. apply Forall_app; split; [done|by constructor]. Qed.

Lemma always_errexit (P : process -> Prop) code : always P (errexit code).
Proof. intros t Ht. unfold errexit. by destruct (Z.eqb code 0). Qed.

Lemma always_substitute (P : process -> Prop) ws :
  P (simple ws) -> always P (substitute world ws).
Proof.
  intros Hp. apply always_bind; [by apply always_spawn|].
  intros r. apply always_ret.
Qed.

Lemma always_expand (P : process -> Prop) ws : always P (expand matches ws).
Proof. by intros t Ht. Qed.

Lemma always_command (P : process -> Prop) ws :
  (forall found, P (simple (fields_of found ws))) ->
  always P (command world matches ws).
Proof. intros Hp t Ht. apply Forall_app; split; [done|]. constructor; [apply Hp|done]. Qed.

Lemma always_checked (P : process -> Prop) ws :
  (forall found, P (simple (fields_of found ws))) ->
  always P (checked world matches ws).
Proof.
  intros Hp. apply always_bind; [by apply always_command|].
  intros r. apply always_errexit.
Qed.

(** *** The discipline of [set -e] *)

Variable judged : process -> Prop.

(** A command that the shell judges. *)
Lemma disciplined_judged p {B} (k : script process B) :
  judged p ->
  disciplined world judged k ->
  disciplined world judged
    (spawn world p ≫= fun r => errexit (exit_code r) ≫= fun _ => k).
Proof.
  intros Hj Hk t Ht. apply wp_bind, wp_spawn, wp_bind, wp_errexit.
  - intros Hc. apply Hk. apply all_succeeded_snoc; [done|by intros _].
  - intros Hc. split; [done|]. by exists t, p.
Qed.

Lemma disciplined_checked ws :
  (forall found, judged (simple (fields_of found ws))) ->
  disciplined world judged (checked world matches ws).
Proof.
  intros Hj t Ht. apply wp_checked. intros p ->. split.
  - intros Hc. apply all_succeeded_snoc; [done|by intros _].
  - intros Hc. split; [done|]. eexists t, _. eauto.
Qed.

(** A command substitution that closes an assignment. *)
Lemma disciplined_assigned ws {B} (k : reply -> script process B) :
  judged (simple ws) ->
  (forall r, disciplined world judged (k r)) ->
  disciplined world judged
    (substitute world ws ≫= fun r => errexit (exit_code r) ≫= fun _ => k r).
Proof.
  intros Hj Hk t Ht. apply wp_bind, wp_substitute, wp_bind, wp_errexit.
  - cbn [exit_code]. intros Hc. apply Hk.
    apply all_succeeded_snoc; [done|by intros _].
  - cbn [exit_code]. intros Hc. split; [done|]. by exists t, (simple ws).
Qed.

(** A command whose status is dropped. *)
Lemma disciplined_spawn p : ~ judged p -> disciplined world judged (spawn world p).
Proof.
  intros Hj t Ht. apply wp_spawn. by apply all_succeeded_snoc.
Qed.

Lemma disciplined_substitute ws :
  ~ judged (simple ws) -> disciplined world judged (substitute world ws).
Proof.
  intros Hj t Ht. apply wp_substitute. by apply all_succeeded_snoc.
Qed.

Lemma disciplined_expand ws : disciplined world judged (expand matches ws).
Proof. by intros t Ht. Qed.

Lemma disciplined_expand_bind ws {B} (k : list string -> script process B) :
  (forall found, disciplined world judged (k (fields_of found ws))) ->
  disciplined world judged (expand matches ws ≫= k).
Proof. intros Hk t Ht. by apply (Hk (matches t) t). Qed.

(** A pipeline of two: only the second stage is judged. *)
Lemma disciplined_piped p1 p2 {B} (k : script process B) :
  ~ judged p1 -> judged p2 ->
  disciplined world judged k ->
  disciplined world judged
    (pipeline world [p1; p2] ≫= fun r => errexit (exit_code r) ≫= fun _ => k).
Proof.
  intros H1 H2 Hk t Ht. apply wp_bind, wp_piped, wp_bind, wp_errexit.
  - intros Hc. apply Hk.
    apply all_succeeded_snoc; [by apply all_succeeded_snoc|by intros _].
  - intros Hc. split; [done|]. exists (t ++ [p1]), p2.
    repeat split; try done. by apply all_succeeded_snoc.
Qed.

End Machine.

(** Following a script command by command. *)
Ltac wp_step :=
  cbv beta;
  lazymatch goal with
  | |- wp (if ?b then _ else _) _ _ _ => destruct b
  | |- wp (_ ≫= _) _ _ _ => apply wp_bind
  | |- wp (checked _ _ _) _ _ _ =>
      apply wp_checked; intros ? ?; split; intros ?
  | |- wp (command _ _ _) _ _ _ => apply wp_command; intros ? ?
  | |- wp (substitute _ _) _ _ _ => apply wp_substitute
  | |- wp (pipeline _ [_; _]) _ _ _ => apply wp_piped
  | |- wp (spawn _ _) _ _ _ => apply wp_spawn
  | |- wp (errexit _) _ _ _ => apply wp_errexit; intros ?
  | |- wp (expand _ _) _ _ _ => apply wp_expand; intros ? ?
  | |- wp (mret _) _ _ _ => apply wp_ret
  end.

Ltac disciplined_step :=
  lazymatch goal with
  | |- disciplined _ _ (if ?b then _ else _) => destruct b
  | |- disciplined _ _ (checked _ _ _) => apply disciplined_checked
  | |- disciplined _ _ (substitute _ _ ≫= fun r => errexit _ ≫= _) =>
      apply disciplined_assigned
  | |- disciplined _ _ (spawn _ _ ≫= fun r => errexit _ ≫= _) =>
      apply disciplined_judged
  | |- disciplined _ _ (pipeline _ [_; _] ≫= fun r => errexit _ ≫= _) =>
      apply disciplined_piped
  | |- disciplined _ _ (expand _ _ ≫= _) => apply disciplined_expand_bind
  | |- disciplined _ _ (substitute _ _) => apply disciplined_substitute
  | |- disciplined _ _ (spawn _ _) => apply disciplined_spawn
  | |- disciplined _ _ (mret _) => apply disciplined_ret
  | |- disciplined _ _ (_ ≫= _) => apply disciplined_bind
  | |- forall _, _ => intros ?
  end.

Ltac always_step :=
  lazymatch goal with
  | |- always _ (if ?b then _ else _) => destruct b
  | |- always _ (checked _ _ _) => apply always_checked
  | |- always _ (command _ _ _) => apply always_command
  | |- always _ (substitute _ _) => apply always_substitute
  | |- always _ (pipeline _ [_; _]) => apply always_piped
  | |- always _ (spawn _ _) => apply always_spawn
  | |- always _ (errexit _) => apply always_errexit
  | |- always _ (expand _ _ ≫= _) => apply always_expand_bind
  | |- always _ (mret _) => apply always_ret
  | |- always _ (_ ≫= _) => apply always_bind
  | |- forall _, _ => intros ?
  end.

End BashProps.

(** ** CMTask2692 *)

Module RefactorSystemTestCaseProps.
Import LintMd Bash BashProps RefactorSystemTestCase.

Ltac words_norm :=
  repeat first
    [ rewrite fields_of_lit
    | rewrite fields_of_lits
    | rewrite fields_of_nil
    | rewrite fields_of_var_plain by done ].

Lemma words_replace_text found old new :
  fields_of found (replace_text old new)
  = ["replace_text.py"; "--old"; old; "--new"; new;
     "--exclude_files"; script_name;
     "--exclude_files"; outputs;
     "--exclude_files"; system_test_case].
Proof. unfold replace_text. by words_norm. Qed.

(** X7.  Under [-e] the script stops at the first command that fails, with
    the status of that command, and the commands it starts are, in this
    order and whatever the disk holds, the three calls of
    [replace_text.py], each of which leaves out the script itself, the test
    outcomes and [system_test_case.py], and then the formatter: the
    formatter is started only after the three replacements have
    succeeded. *)
Theorem formatter_runs_after_three_replacements
    (world : list process -> process -> reply)
    (matches : list process -> string -> list string) :
  let r := refactor_system_test_case world matches [] in
  stops_at_first_failure world (fun _ => True) r /\
  words <$> r.1 `prefix_of`
    [ ["replace_text.py"; "--old"; "system_tester."; "--new"; "dtfsys.";
       "--exclude_files"; script_name; "--exclude_files"; outputs;
       "--exclude_files"; system_test_case];
      ["replace_text.py";
       "--old"; "import dataflow.system.test.system_test_case as dtfsytsytc";
       "--new"; "import dataflow.system as dtfsys";
       "--exclude_files"; script_name; "--exclude_files"; outputs;
       "--exclude_files"; system_test_case];
      ["replace_text.py"; "--old"; "dtfsytsytc."; "--new"; "dtfsys.";
       "--exclude_files"; script_name; "--exclude_files"; outputs;
       "--exclude_files"; system_test_case];
      ["invoke"; "lint"; "-m"; "--only-format"] ] /\
  (r.2 = Ok tt -> length r.1 = 4%nat).
Proof.
  intros r. split; [|split].
  - apply disciplined_run. unfold refactor_system_test_case.
    repeat disciplined_step; done.
  - set (L := (_ :: _ :: _ :: _ :: _ : list (list string))).
    assert (H : wp (refactor_system_test_case world matches)
                  (fun _ t' => words <$> t' = L)
                  (fun _ t' => words <$> t' `prefix_of` L) []).
    { unfold refactor_system_test_case.
      repeat wp_step; subst;
        rewrite !fmap_app; cbn [fmap list_fmap app words simple];
        rewrite ?words_replace_text; words_norm;
        first [reflexivity | repeat (apply prefix_cons); apply prefix_nil]. }
    apply wp_run in H. fold r in H.
    destruct (r.2); [by rewrite H|done].
  - assert (H : wp (refactor_system_test_case world matches)
                  (fun _ t' => length t' = 4%nat) (fun _ _ => True) []).
    { unfold refactor_system_test_case. repeat wp_step; done. }
    apply wp_run in H. fold r in H. intros Hr. by rewrite Hr in H.
Qed.

End RefactorSystemTestCaseProps.

(** ** The comparison of the dev scripts *)

Module CompareDevScriptsProps.
Import LintMd Bash BashProps CompareDevScripts.

(** X8.  Both conditions of the script compare constants, so in a shell
    started with its default options one path is taken whatever [HOME] is
    and whatever the commands answer: three [echo], then
    [diff_to_vimdiff.py] on the two [.github] directories.  [vimdiff] is
    never started, and the status of the script is the status of
    [diff_to_vimdiff.py]. *)
Theorem only_the_github_dirs_are_compared
    (world : list process -> process -> reply)
    (matches : list process -> string -> list string)
    (environ : gmap string string) :
  Shell.default_startup environ ->
  let r := compare_dev_scripts world matches environ [] in
  name <$> r.1
    = [Some "echo"; Some "echo"; Some "echo"; Some "diff_to_vimdiff.py"] /\
  Forall (fun p => name p <> Some "vimdiff") r.1 /\
  exists t p, r.1 = t ++ [p] /\ r.2 = Ok (world t p).
Proof.
  intros _ r.
  assert (H : wp (compare_dev_scripts world matches environ)
                (fun a t' =>
                   name <$> t' = [Some "echo"; Some "echo"; Some "echo";
                                  Some "diff_to_vimdiff.py"] /\
                   exists t p, t' = t ++ [p] /\ a = world t p)
                (fun _ _ => False) []).
  { unfold compare_dev_scripts.
    change (test_eq "1" "1") with true. change (test_eq "0" "1") with false.
    cbv iota. repeat wp_step. subst. split; [reflexivity|eauto]. }
  apply wp_run in H. fold r in H.
  destruct (r.2) as [a|c]; [|done]. destruct H as (Hn & t & p & Ht & ->).
  split; [exact Hn|]. split; [|eauto].
  apply Forall_forall. intros q Hq Hv.
  apply (list_elem_of_fmap_2 name) in Hq. rewrite Hn, Hv in Hq.
  rewrite !elem_of_cons, elem_of_nil in Hq.
  destruct Hq as [Hq|[Hq|[Hq|[Hq|[]]]]]; discriminate.
Qed.

(** Every command succeeds, in the home of [user]. *)
Lemma only_the_github_dirs_are_compared_witness :
  let world := fun (_ : list process) (_ : process) =>
    {| exit_code := 0; output := "" |} in
  let matches := fun (_ : list process) (_ : string) => @nil string in
  let environ : gmap string string := {[ "HOME" := "/home/user" ]} in
  Shell.default_startup environ /\
  let r := compare_dev_scripts world matches environ [] in
  name <$> r.1
    = [Some "echo"; Some "echo"; Some "echo"; Some "diff_to_vimdiff.py"] /\
  Forall (fun p => name p <> Some "vimdiff") r.1 /\
  exists t p, r.1 = t ++ [p] /\ r.2 = Ok (world t p).
Proof.
  intros world matches environ.
  assert (Hd : Shell.default_startup environ)
    by apply ShellProps.default_startup_home.
  split; [exact Hd|].
  exact (only_the_github_dirs_are_compared world matches environ Hd).
Defined.

End CompareDevScriptsProps.

(** ** The launcher of the tiled backtest *)

Module RunTiledBacktestProps.
Import LintMd Bash BashProps RunTiledBacktest.

(** X9.  The launcher never starts [run_experiment.py]: it starts the stub,
    with standard error joined to standard output, piped into
    [tee log.txt], and its status is the status of [tee] whatever the stub
    returns, so a failed experiment is not seen in the exit status. *)
Theorem exit_status_is_that_of_tee
    (world : list process -> process -> reply)
    (matches : list process -> string -> list string) :
  let r := run_tiled_backtest world matches [] in
  exists stub tee,
    r.1 = [stub; tee] /\
    name stub = Some "/app/dataflow/model/run_experiment_stub.py" /\
    stderr_to_stdout stub = true /\
    words tee = ["tee"; "log.txt"] /\
    r.2 = Ok (world [stub] tee) /\
    exit_status r.2 = exit_code (world [stub] tee).
Proof.
  intros r. eexists _, _. repeat split; reflexivity.
Qed.

End RunTiledBacktestProps.

(** ** defi/devops/docker_bash.sh *)

Module DockerBashProps.
Import LintMd Bash BashProps DockerBash.


(** X11.  When [id -u], [id -g] and [pwd] print plain words, the container is
    started with exactly this command line: [$OPTS] gives the two words
    [--user] and [uid:gid], the working directory is mounted on [/data], and
    container and image are both [defi]. *)
Theorem defi_container_command_line
    (world : list process -> process -> reply)
    (matches : list process -> string -> list string)
    (uid gid cwd : string) :
  (forall t, strip_trailing_newlines (output (world t (simple ["id"; "-u"]))) = uid) ->
  (forall t, strip_trailing_newlines (output (world t (simple ["id"; "-g"]))) = gid) ->
  (forall t, strip_trailing_newlines (output (world t (simple ["pwd"]))) = cwd) ->
  (forall t, exit_code (world t (simple ["id"; "-g"])) = 0) ->
  plain uid = true -> plain gid = true -> plain cwd = true ->
  words <$> (docker_bash world matches []).1
  = [ ["id"; "-u"]; ["id"; "-g"]; ["pwd"];
      ["docker"; "run"; "--user"; uid +:+ ":" +:+ gid; "--rm"; "-ti";
       "--net"; "bridge"; "--name"; "defi";
       "-p"; "5920:5920"; "-p"; "3001:3000"; "-p"; "7545:7545";
       "-p"; "8545:8545"; "-p"; "8889:8888";
       "-v"; cwd +:+ ":/data"; "defi"] ].
Proof.
  intros Hu Hg Hd Hok Hpu Hpg Hpd.
  assert (H : wp (docker_bash world matches)
                (fun _ t' => words <$> t' = [ ["id"; "-u"]; ["id"; "-g"]; ["pwd"];
      ["docker"; "run"; "--user"; uid +:+ ":" +:+ gid; "--rm"; "-ti";
       "--net"; "bridge"; "--name"; "defi";
       "-p"; "5920:5920"; "-p"; "3001:3000"; "-p"; "7545:7545";
       "-p"; "8545:8545"; "-p"; "8889:8888";
       "-v"; cwd +:+ ":/data"; "defi"] ])
                (fun _ t' => words <$> t' = [ ["id"; "-u"]; ["id"; "-g"]; ["pwd"];
      ["docker"; "run"; "--user"; uid +:+ ":" +:+ gid; "--rm"; "-ti";
       "--net"; "bridge"; "--name"; "defi";
       "-p"; "5920:5920"; "-p"; "3001:3000"; "-p"; "7545:7545";
       "-p"; "8545:8545"; "-p"; "8889:8888";
       "-v"; cwd +:+ ":/data"; "defi"] ])
                []).
  { unfold docker_bash. repeat wp_step.
    3:{ cbn [exit_code] in *. by rewrite Hok in *. }
    all: subst; cbn [output]; rewrite Hu, Hg, Hd;
      rewrite !fmap_app; cbn [fmap list_fmap app words simple];
      rewrite !fields_of_lit;
      change ("--user " +:+ uid +:+ ":" +:+ gid)
        with ("--user" +:+ String " " (uid +:+ ":" +:+ gid));
      rewrite fields_of_var_two;
      [ rewrite !fields_of_lit, fields_of_var_plain by done;
        rewrite !fields_of_lit, fields_of_plain_then_text by done;
        by rewrite fields_of_var_plain
      | done | done
      | rewrite !plain_app, Hpu, Hpg; reflexivity
      | by destruct uid ]. }
  apply wp_run in H. by destruct ((docker_bash world matches []).2).
Qed.

(** A run as user 1000:1000 in [/home/user/defi]. *)
Lemma defi_container_command_line_witness :
  let world := fun (_ : list process) (p : process) =>
    {| exit_code := 0;
       output := if decide (words p = ["pwd"]) then "/home/user/defi
" else "1000
" |} in
  words <$> (docker_bash world (fun _ _ => []) []).1
  = [ ["id"; "-u"]; ["id"; "-g"]; ["pwd"];
      ["docker"; "run"; "--user"; "1000:1000"; "--rm"; "-ti";
       "--net"; "bridge"; "--name"; "defi";
       "-p"; "5920:5920"; "-p"; "3001:3000"; "-p"; "7545:7545";
       "-p"; "8545:8545"; "-p"; "8889:8888";
       "-v"; "/home/user/defi:/data"; "defi"] ].
Proof.
  intros world.
  apply (defi_container_command_line world (fun _ _ => []) "1000" "1000"
           "/home/user/defi"); intros; reflexivity.
Defined.

(** In a directory whose name has a blank the mount is broken in two:
    [$(pwd)] is not quoted. *)
Example working_directory_with_blank :
  let world := fun (_ : list process) (p : process) =>
    {| exit_code := 0;
       output := if decide (words p = ["pwd"]) then "/home/my dir
" else "1000
" |} in
  drop 20 <$> last (words <$> (docker_bash world (fun _ _ => []) []).1)
  = Some ["-v"; "/home/my"; "dir:/data"; "defi"].
Proof. vm_compute. reflexivity. Qed.

End DockerBashProps.

(** ** devops/docker_build/install_os_packages.sh *)

Module InstallOsPackagesProps.
Import LintMd Bash BashProps InstallOsPackages.

Lemma judged_named found s ws p :
  words p = fields_of found (lit s :: ws) ->
  s <> "du" -> s <> "python3" -> s <> "pip3" -> s <> "poetry" -> s <> "gh" ->
  judged p.
Proof.
  intros Hw ? ? ? ? ?. unfold judged, name, version_queries.
  rewrite Hw, fields_of_lit. split; [|by intros [= ?]].
  rewrite !elem_of_cons, elem_of_nil.
  intros [[= ? _]|[[= ? _]|[[= ? _]|[[= ? _]|[]]]]]; done.
Qed.

Lemma judged_pip3_install found :
  judged (simple (fields_of found (lits ["pip3"; "install"; "poetry"]))).
Proof.
  unfold judged, name, version_queries. cbn [words simple].
  rewrite fields_of_lits. split; [|done].
  rewrite !elem_of_cons, elem_of_nil.
  intros [H|[H|[H|[H|[]]]]]; discriminate.
Qed.

Lemma not_judged_version tool :
  [tool; "--version"] ∈ version_queries ->
  ~ judged (simple [tool; "--version"]).
Proof. intros Hq [Hn _]. by apply Hn. Qed.

Section Run.

Variable world : list process -> process -> reply.
Variable matches : list process -> string -> list string.

Lemma disciplined_echo_version label tool :
  [tool; "--version"] ∈ version_queries ->
  disciplined world judged (echo_version world matches label tool).
Proof.
  intros Hq. unfold echo_version. repeat disciplined_step.
  - by apply not_judged_version.
  - by eapply judged_named.
Qed.

Ltac install_step :=
  lazymatch goal with
  | |- disciplined _ _ (echo_version _ _ _ _) =>
      apply disciplined_echo_version; unfold version_queries;
      rewrite !elem_of_cons; tauto
  | |- judged (simple (fields_of _ (lits ["pip3"; "install"; "poetry"]))) =>
      apply judged_pip3_install
  | |- judged _ =>
      eapply judged_named; [reflexivity|discriminate..]
  | |- ~ judged (simple (fields_of _ (lit "du" :: _))) =>
      intros [_ Hdu]; apply Hdu; reflexivity
  | |- _ => disciplined_step
  end.

Lemma install_os_packages_disciplined environ :
  disciplined world judged (install_os_packages world matches environ).
Proof.
  unfold install_os_packages, apt_get_install.
  cbn [app].
  repeat install_step.
Qed.

Lemma not_cleans found s ws p :
  words p = fields_of found (lit s :: ws) ->
  s <> "rm" -> s <> "apt-get" ->
  ~ cleans p.
Proof.
  intros Hw Hrm Hapt. unfold cleans, name. rewrite Hw, fields_of_lit.
  intros [[= ?]|Hp]; [done|]. destruct (fields_of found ws); by injection Hp.
Qed.

Lemma not_cleans_apt_get found s ws p :
  words p = fields_of found (lit "apt-get" :: lit s :: ws) ->
  s <> "purge" ->
  ~ cleans p.
Proof.
  intros Hw ?. unfold cleans, name. rewrite Hw, !fields_of_lit.
  by intros [[= ?]|[= ?]].
Qed.

Lemma echo_version_never_cleans label tool :
  tool <> "rm" -> tool <> "apt-get" ->
  always (fun p => ~ cleans p) (echo_version world matches label tool).
Proof.
  intros ? ?. unfold echo_version. repeat always_step.
  - unfold cleans, name. cbn. by intros [[= ?]|[= ? _]].
  - by eapply not_cleans.
Qed.

End Run.

Ltac never_cleans_step :=
  lazymatch goal with
  | |- always _ (echo_version _ _ _ _) =>
      apply echo_version_never_cleans; discriminate
  | |- ~ cleans _ =>
      first [ eapply not_cleans; [reflexivity|discriminate|discriminate]
            | eapply not_cleans_apt_get; [reflexivity|discriminate] ]
  | |- _ => always_step
  end.

(** X12.  Started with its default options, the shell judges every command
    of the script but the four version queries and [du]: a run that leaves
    early does so with the status of the judged command started last, every
    judged command before it having succeeded, and a run in which only
    version queries or [du] fail goes on to the end. *)
Theorem install_stops_at_first_failure
    (world : list process -> process -> reply)
    (matches : list process -> string -> list string)
    (environ : gmap string string) :
  Shell.default_startup environ ->
  let r := install_os_packages world matches environ [] in
  stops_at_first_failure world judged r /\
  ((exists a, r.2 = Ok a) <-> all_succeeded world judged r.1).
Proof.
  intros _ r.
  assert (H : stops_at_first_failure world judged r)
    by apply disciplined_run, install_os_packages_disciplined.
  split; [exact H|]. by apply stops_at_first_failure_ok.
Qed.

(** Every command succeeds, and [CLEAN_UP_INSTALLATION] is not set. *)
Lemma install_stops_at_first_failure_witness :
  let world := fun (_ : list process) (_ : process) =>
    {| exit_code := 0; output := "" |} in
  let matches := fun (_ : list process) (_ : string) => @nil string in
  let environ : gmap string string := ∅ in
  Shell.default_startup environ /\
  let r := install_os_packages world matches environ [] in
  stops_at_first_failure world judged r /\
  ((exists a, r.2 = Ok a) <-> all_succeeded world judged r.1).
Proof.
  intros world matches environ.
  assert (Hd : Shell.default_startup environ)
    by apply ShellProps.default_startup_empty.
  split; [exact Hd|].
  exact (install_stops_at_first_failure world matches environ Hd).
Defined.

(** [$DIRS] is two fields, the second a pattern. *)
Lemma fields_of_DIRS found :
  fields_of found [var DIRS]
  = "/root/.cache" :: glob_field found ("/tmp/*", true).
Proof.
  unfold fields_of. rewrite bind_singleton.
  change (split_word (var DIRS))
    with [("/root/.cache", false); ("/tmp/*", true)].
  rewrite bind_cons, bind_singleton. reflexivity.
Qed.

(** X13.  In a shell started with its default options the clean-up is
    decided by whether [CLEAN_UP_INSTALLATION] is empty, not by what it
    says: with the variable unset or empty no [rm] and no [apt-get purge]
    is ever started; with any other value, [0] or [false] included, a run
    that reaches the end finishes with [rm -rf] on [/root/.cache] and on
    whatever [/tmp/*] matches at that moment (the pattern itself when
    nothing matches). *)
Theorem clean_up_follows_the_variable
    (world : list process -> process -> reply)
    (matches : list process -> string -> list string)
    (environ : gmap string string) :
  Shell.default_startup environ ->
  let r := install_os_packages world matches environ [] in
  let clean_up := default "" (environ !! "CLEAN_UP_INSTALLATION") in
  (clean_up = "" -> Forall (fun p => ~ cleans p) r.1) /\
  (clean_up <> "" -> r.2 = Ok tt ->
   exists t p,
     r.1 = t ++ [p] /\
     words p = ["rm"; "-rf"; "/root/.cache"]
               ++ glob_field (matches t) ("/tmp/*", true)).
Proof.
  intros _ r clean_up. split.
  - intros Hc.
    assert (H : always (fun p => ~ cleans p)
                  (install_os_packages world matches environ)).
    { unfold install_os_packages, apt_get_install. cbv zeta.
      fold clean_up. rewrite Hc. change (test_nonempty "") with false.
      cbn [app]. repeat never_cleans_step. }
    apply H. constructor.
  - intros Hc Hr.
    assert (Ht : test_nonempty clean_up = true).
    { unfold test_nonempty. by rewrite bool_decide_eq_false_2. }
    assert (H : wp (install_os_packages world matches environ)
                  (fun _ t' => exists t p, t' = t ++ [p] /\
                     words p = ["rm"; "-rf"; "/root/.cache"]
                               ++ glob_field (matches t) ("/tmp/*", true))
                  (fun _ _ => True) []).
    { unfold install_os_packages, echo_version. cbv zeta.
      fold clean_up. rewrite Ht.
      repeat wp_step; try exact I.
      eexists _, _. split; [reflexivity|].
      match goal with H : ?p = simple _ |- words ?p = _ => rewrite H end.
      cbn [words simple]. by rewrite !fields_of_lit, fields_of_DIRS. }
    apply wp_run in H. fold r in H. by rewrite Hr in H.
Qed.

(** [CLEAN_UP_INSTALLATION=false], and two files in [/tmp]. *)
Lemma clean_up_follows_the_variable_witness :
  let world := fun (_ : list process) (_ : process) =>
    {| exit_code := 0; output := "" |} in
  let matches := fun (_ : list process) (_ : string) => ["/tmp/a"; "/tmp/b"] in
  let environ : gmap string string :=
    {[ "CLEAN_UP_INSTALLATION" := "false" ]} in
  Shell.default_startup environ /\
  let r := install_os_packages world matches environ [] in
  let clean_up := default "" (environ !! "CLEAN_UP_INSTALLATION") in
  (clean_up = "" -> Forall (fun p => ~ cleans p) r.1) /\
  (clean_up <> "" -> r.2 = Ok tt ->
   exists t p,
     r.1 = t ++ [p] /\
     words p = ["rm"; "-rf"; "/root/.cache"]
               ++ glob_field (matches t) ("/tmp/*", true)).
Proof.
  intros world matches environ.
  assert (Hd : Shell.default_startup environ)
    by (by apply ShellProps.default_startup_singleton).
  split; [exact Hd|].
  exact (clean_up_follows_the_variable world matches environ Hd).
Defined.

(** A run in which every command succeeds, with
    [CLEAN_UP_INSTALLATION=false] and two files in [/tmp]: the last
    command removes them. *)
Example clean_up_installation_false :
  let world := fun (_ : list process) (_ : process) =>
    {| exit_code := 0; output := "" |} in
  let matches := fun (_ : list process) (_ : string) => ["/tmp/a"; "/tmp/b"] in
  let r := install_os_packages world matches
             {[ "CLEAN_UP_INSTALLATION" := "false" ]} [] in
  r.2 = Ok tt /\
  words <$> last r.1 = Some ["rm"; "-rf"; "/root/.cache"; "/tmp/a"; "/tmp/b"].
Proof. vm_compute. done. Qed.

End InstallOsPackagesProps.

(** ** CmTask974 *)

Module CmTask974Props.
Import LintMd Bash BashProps CmTask974.

Section Run.

Variable world : list process -> process -> reply.
Variable matches : list process -> string -> list string.

Lemma move_to_hpandas_disciplined :
  disciplined world (fun _ => True) (move_to_hpandas world matches).
Proof. unfold move_to_hpandas. repeat disciplined_step; done. Qed.

Lemma move_to_hpandas_never_moves_dataframe_to_str :
  always (fun p => ~ moves_dataframe_to_str p) (move_to_hpandas world matches).
Proof.
  unfold move_to_hpandas. repeat always_step.
  all: unfold moves_dataframe_to_str, name; cbn [words simple].
  all: rewrite ?fields_of_lits, ?fields_of_lit.
  all: intros [Hn Hw]; discriminate.
Qed.

End Run.

(** X14.  The line that should move [dataframe_to_str] never calls
    [replace_text.py]: the fifth command the script starts is named
    [--old], and [replace_text.py] is only an assignment to [SOURCE_REPO]
    in its environment.  All commands are judged ([-e]), so the script goes
    past that line only if a command named [--old] exists and succeeds; and
    no call of [replace_text.py] that the script does make renames
    [hprint.dataframe_to_str]. *)
Theorem dataframe_to_str_is_not_moved
    (world : list process -> process -> reply)
    (matches : list process -> string -> list string) :
  let r := move_to_hpandas world matches [] in
  stops_at_first_failure world (fun _ => True) r /\
  Forall (fun p => ~ moves_dataframe_to_str p) r.1 /\
  (forall p, r.1 !! 4%nat = Some p ->
     assigned p = [("SOURCE_REPO",
                    "CMTask974_run_script./dev_scripts/replace_text.py")] /\
     words p = ["--old"; "hprint.dataframe_to_str";
                "--new"; "hpandas.dataframe_to_str"; "--ext"; "py"]) /\
  Forall (fun p => name p <> Some replace_text_py) (take 5 r.1).
Proof.
  intros r. split; [|split].
  - apply disciplined_run, move_to_hpandas_disciplined.
  - apply move_to_hpandas_never_moves_dataframe_to_str. constructor.
  - set (P := fun t' : list process =>
        (forall p, t' !! 4%nat = Some p ->
           assigned p = [("SOURCE_REPO",
                          "CMTask974_run_script./dev_scripts/replace_text.py")] /\
           words p = ["--old"; "hprint.dataframe_to_str";
                      "--new"; "hpandas.dataframe_to_str"; "--ext"; "py"]) /\
        Forall (fun p => name p <> Some replace_text_py) (take 5 t')).
    assert (H : wp (move_to_hpandas world matches)
                  (fun _ t' => P t') (fun _ t' => P t') []).
    { unfold move_to_hpandas. repeat wp_step.
      all: unfold P; cbn [app take lookup list_lookup]; split;
        [ intros q Hq;
          first [ discriminate Hq
                | injection Hq as <-; subst; cbn [assigned words];
                  by rewrite fields_of_lits ]
        | subst; repeat constructor; unfold name; cbn [words simple];
          rewrite ?fields_of_lits, ?fields_of_lit; discriminate ]. }
    apply wp_run in H. fold r in H. by destruct (r.2).
Qed.

(** On a machine where no command is named [--old] (status 127) the
    script stops at its fifth command, before any replacement. *)
Example stops_at_the_fifth_command :
  let world := fun (_ : list process) (p : process) =>
    {| exit_code := if decide (name p = Some "--old") then 127 else 0;
       output := "" |} in
  let r := move_to_hpandas world (fun _ _ => []) [] in
  name <$> r.1
  = [Some "cd"; Some "git"; Some "git"; Some "git"; Some "--old"] /\
  r.2 = Abort 127.
Proof. vm_compute. by split. Qed.

End CmTask974Props.

(** ** More about [lint_md.sh] *)

Module LintMdRunProps.
Import LintMd LintMdProps LintMdRun.

(** *** Splitting *)

Lemma rev_app_spec (a : string) : forall b,
  String.rev_app a b = String.rev a +:+ b.
Proof.
  unfold String.rev. induction a as [|c a IH]; intros b; [reflexivity|].
  cbn [String.rev_app]. rewrite (IH (String c b)), (IH (String c "")).
  by rewrite CheckCredentialsProps.string_app_assoc.
Qed.

Lemma fields_go_plain s : forall cur,
  Bash.plain s = true -> cur <> "" \/ s <> "" ->
  fields_go cur s = [String.rev cur +:+ s].
Proof.
  induction s as [|c s IH]; intros cur Hp Hne.
  - cbn. destruct (decide (cur = "")) as [->|_]; [by destruct Hne|].
    by rewrite BashProps.string_app_nil_r.
  - cbn in Hp. apply andb_prop in Hp as [Hc Hs].
    apply andb_prop in Hc as [Hi _]. apply negb_true_iff in Hi.
    cbn [fields_go]. rewrite Hi, IH by (done || by left).
    unfold String.rev. cbn [String.rev_app]. rewrite rev_app_spec.
    by rewrite CheckCredentialsProps.string_app_assoc.
Qed.

Lemma has_pattern_plain s : Bash.plain s = true -> has_pattern s = false.
Proof.
  induction s as [|c s IH]; [done|]. cbn [Bash.plain has_pattern]. intros Hp.
  apply andb_prop in Hp as [Hc Hs]. apply andb_prop in Hc as [_ Hg].
  apply negb_true_iff in Hg. rewrite <- (IH Hs).
  destruct c as [[] [] [] [] [] [] [] []]; try reflexivity; discriminate Hg.
Qed.

(** A plain, non-empty word goes through an unquoted expansion as it
    is. *)
Lemma unquoted_plain matches s :
  Bash.plain s = true -> s <> "" -> unquoted matches s = [s].
Proof.
  intros Hp Hs. unfold unquoted, fields.
  rewrite fields_go_plain by (done || by right).
  rewrite bind_singleton. unfold glob. by rewrite has_pattern_plain.
Qed.

Lemma fields_go_app_blank a : forall cur b,
  fields_go cur (a +:+ String " " b) = fields_go cur a ++ fields b.
Proof.
  induction a as [|c a IH]; intros cur b.
  - change ("" +:+ String " " b) with (String " " b). reflexivity.
  - change (String c a +:+ String " " b) with (String c (a +:+ String " " b)).
    cbn [fields_go]. destruct (is_ifs c).
    + by rewrite IH, app_assoc.
    + apply IH.
Qed.

(** Splitting what [$@] joined gives the fields of each argument. *)
Lemma fields_joined args : fields (joined args) = args ≫= fields.
Proof.
  unfold joined. induction args as [|x [|y l] IH].
  - reflexivity.
  - cbn [String.concat]. by rewrite bind_singleton.
  - change (String.concat " " (x :: y :: l))
      with (x +:+ String " " (String.concat " " (y :: l))).
    unfold fields at 1. rewrite fields_go_app_blank, IH.
    by rewrite (bind_cons fields x).
Qed.

Lemma list_bind_bind {A B C} (f : A -> list B) (g : B -> list C) (l : list A) :
  (l ≫= f) ≫= g = l ≫= (fun a => f a ≫= g).
Proof.
  induction l as [|a l IH]; [reflexivity|].
  by rewrite !bind_cons, bind_app, IH.
Qed.

(** [$CMD], unquoted: the three words of the command, then each argument
    split and globbed on its own. *)
Lemma unquoted_CMD matches args :
  unquoted matches ("bash -c ./run_linter.sh " +:+ joined args)
  = ["bash"; "-c"; "./run_linter.sh"] ++ (args ≫= unquoted matches).
Proof.
  unfold unquoted.
  change ("bash -c ./run_linter.sh " +:+ joined args)
    with ("bash -c ./run_linter.sh" +:+ String " " (joined args)).
  unfold fields at 1. rewrite fields_go_app_blank, fields_joined.
  rewrite bind_app, list_bind_bind. reflexivity.
Qed.

(** *** The rules for the commands of [lint_md.sh] *)

Section Script.

Variable world : list invocation -> invocation -> reply.
Variable matches : string -> list string.

Lemma wp_lint_run inv (Q : unit -> _) F t :
  (exit_code (world t inv) = 0 -> Q tt (t ++ [inv])) ->
  (exit_code (world t inv) <> 0 -> F (exit_code (world t inv)) (t ++ [inv])) ->
  Bash.wp (run world inv) Q F t.
Proof.
  intros HQ HF. unfold Bash.wp, run, mbind, sh_bind, spawn, errexit.
  destruct (Z.eqb_spec (exit_code (world t inv)) 0); [by apply HQ|by apply HF].
Qed.

Lemma wp_lint_substitute ws (Q : reply -> _) F t :
  Q {| exit_code := exit_code (world t (command ws));
       output := strip_trailing_newlines (output (world t (command ws))) |}
    (t ++ [command ws]) ->
  Bash.wp (substitute world ws) Q F t.
Proof. done. Qed.

Lemma wp_lint_errexit code (Q : unit -> list invocation -> Prop) F t :
  (code = 0 -> Q tt t) -> (code <> 0 -> F code t) ->
  Bash.wp (errexit code) Q F t.
Proof.
  intros HQ HF. unfold Bash.wp, errexit.
  destruct (Z.eqb_spec code 0); [by apply HQ|by apply HF].
Qed.

Lemma disciplined_lint_run inv :
  judged inv -> Bash.disciplined world judged (run world inv).
Proof.
  intros Hj t Ht. apply wp_lint_run.
  - intros Hc. apply BashProps.all_succeeded_snoc; [done|by intros _].
  - intros Hc. split; [done|]. by exists t, inv.
Qed.

Lemma disciplined_lint_substitute ws :
  ~ judged (command ws) ->
  Bash.disciplined world judged (substitute world ws).
Proof.
  intros Hj t Ht. apply wp_lint_substitute. by apply BashProps.all_succeeded_snoc.
Qed.

Lemma disciplined_lint_assigned ws {B} (k : reply -> sh B) :
  judged (command ws) ->
  (forall r, Bash.disciplined world judged (k r)) ->
  Bash.disciplined world judged
    (substitute world ws ≫= fun r =>
       errexit (exit_code r) ≫= fun _ => k r).
Proof.
  intros Hj Hk t Ht.
  apply (BashProps.wp_bind (E := invocation)), wp_lint_substitute.
  apply (BashProps.wp_bind (E := invocation)), wp_lint_errexit.
  - cbn [exit_code]. intros Hc. apply Hk.
    apply BashProps.all_succeeded_snoc; [done|by intros _].
  - cbn [exit_code]. intros Hc. split; [done|].
    by exists t, (command ws).
Qed.

Ltac lint_disciplined_step :=
  lazymatch goal with
  | |- Bash.disciplined _ _ (run _ _) => apply disciplined_lint_run
  | |- Bash.disciplined _ _ (substitute _ _ ≫= fun r => errexit _ ≫= _) =>
      apply disciplined_lint_assigned
  | |- Bash.disciplined _ _ (substitute _ _) => apply disciplined_lint_substitute
  | |- Bash.disciplined _ _ (_ ≫= _) => apply (BashProps.disciplined_bind (E := invocation))
  | |- forall _, _ => intros ?
  end.

Ltac lint_judged :=
  lazymatch goal with
  | |- judged _ =>
      split; cbn [argv command app take]; intros Hj; discriminate Hj
  | |- ~ judged (command ["logname"]) => intros [Hj _]; by apply Hj
  | |- ~ judged _ => intros [_ Hj]; by apply Hj
  end.

Lemma lint_md_disciplined args :
  Bash.disciplined world judged (lint_md world matches args).
Proof. unfold lint_md. repeat lint_disciplined_step; lint_judged. Qed.

Ltac prefix_snoc :=
  first [ reflexivity | apply prefix_app_r; prefix_snoc ].

Ltac lint_wp_step :=
  cbv beta;
  lazymatch goal with
  | |- Bash.wp (run _ _) _ _ _ => apply wp_lint_run; intros ?
  | |- Bash.wp (substitute _ _) _ _ _ => apply wp_lint_substitute
  | |- Bash.wp (errexit _) _ _ _ => apply wp_lint_errexit; intros ?
  | |- Bash.wp (_ ≫= _) _ _ _ => apply (BashProps.wp_bind (E := invocation))
  end.

(** A property of every invocation and of what was started before it
    holds of a trace that grows at the end. *)
Lemma each_started_nil (P : list invocation -> invocation -> Prop) :
  forall t0 inv t1, [] = t0 ++ inv :: t1 -> P t0 inv.
Proof. intros [|? ?] ? ? [=]. Qed.

Lemma each_started_snoc (P : list invocation -> invocation -> Prop) t x :
  (forall t0 inv t1, t = t0 ++ inv :: t1 -> P t0 inv) ->
  P t x ->
  forall t0 inv t1, t ++ [x] = t0 ++ inv :: t1 -> P t0 inv.
Proof.
  intros Ht Hx t0 inv t1 Heq.
  destruct t1 as [|y t1 _] using rev_ind.
  - by apply app_inj_tail in Heq as [<- <-].
  - rewrite app_comm_cons, app_assoc in Heq.
    apply app_inj_tail in Heq as [-> _]. by eapply Ht.
Qed.

(** Whatever has been started before an [rm], a [docker run] that
    succeeded is part of it. *)
Lemma lint_md_removes args :
  let guarded := fun t' : list invocation =>
    forall t0 inv t1, t' = t0 ++ inv :: t1 -> removes inv ->
      exists t d, t ++ [d] `prefix_of` t0 /\ runs_docker d /\
                  exit_code (world t d) = 0 in
  Bash.wp (lint_md world matches args)
    (fun _ t' => guarded t') (fun _ t' => guarded t') [].
Proof.
  intros guarded. unfold lint_md. repeat lint_wp_step.
  all: unfold guarded;
    repeat (apply (each_started_snoc
                     (fun t0 inv => removes inv -> exists t d,
                        t ++ [d] `prefix_of` t0 /\ runs_docker d /\
                        exit_code (world t d) = 0)));
    [ apply (each_started_nil
               (fun t0 inv => removes inv -> exists t d,
                  t ++ [d] `prefix_of` t0 /\ runs_docker d /\
                  exit_code (world t d) = 0)) | .. ].
  all: first
    [ intros Hr; unfold removes in Hr; cbn [argv command app head] in Hr;
      discriminate Hr
    | intros _;
      match goal with
      | H : exit_code (world ?t ?d) = 0 |- _ =>
          exists t, d; split; [prefix_snoc|];
          split; [reflexivity|exact H]
      end ].
Qed.

End Script.

(** X4.  Under [set -e] the shell judges every command of [lint_md.sh] but
    the two [logname] and [id -u]: a run that leaves early does so with the
    status of the judged command started last, every judged command before
    it having succeeded, and a run in which only [logname] or [id -u] fail
    goes on to the end. *)
Theorem lint_md_stops_at_first_failure
    (world : list invocation -> invocation -> reply)
    (matches : string -> list string) (args : list string) :
  let r := run_lint_md world matches args in
  Bash.stops_at_first_failure world judged r /\
  ((exists a, r.2 = Ok a) <-> Bash.all_succeeded world judged r.1).
Proof.
  intros r.
  assert (H : Bash.stops_at_first_failure world judged r)
    by apply (BashProps.disciplined_run (E := invocation)), lint_md_disciplined.
  split; [exact H|]. by apply BashProps.stops_at_first_failure_ok.
Qed.

(** X5.  The two temporary files are removed only at the very end: in
    every run, whatever was started before an [rm] holds a [docker run]
    that succeeded.  A run that fails, in [docker run] or earlier, starts
    no [rm] and leaves the Dockerfile in [/tmp] and, once written,
    [run_linter.sh] behind. *)
Theorem temporary_files_stay_unless_docker_run_succeeds
    (world : list invocation -> invocation -> reply)
    (matches : string -> list string) (args : list string) :
  let r := run_lint_md world matches args in
  forall t0 inv t1,
    r.1 = t0 ++ inv :: t1 -> removes inv ->
    exists t d, t ++ [d] `prefix_of` t0 /\ runs_docker d /\
                exit_code (world t d) = 0.
Proof.
  intros r. pose proof (lint_md_removes world matches args) as H.
  cbv zeta in H. apply BashProps.wp_run in H.
  fold (run_lint_md world matches args) in H. fold r in H.
  by destruct (r.2).
Qed.

(** Every command succeeds on [README.md]: the first [rm] is the eleventh
    command, and the tenth is the [docker run]. *)
Lemma temporary_files_stay_unless_docker_run_succeeds_witness :
  let world := fun (_ : list invocation) (_ : invocation) =>
    {| exit_code := 0; output := "" |} in
  let matches := fun _ : string => @nil string in
  let r := run_lint_md world matches ["README.md"] in
  let t0 := take 10 r.1 in
  let inv := command ["rm"; "run_linter.sh"] in
  let t1 := drop 11 r.1 in
  r.1 = t0 ++ inv :: t1 /\
  removes inv /\
  exists t d, t ++ [d] `prefix_of` t0 /\ runs_docker d /\
              exit_code (world t d) = 0.
Proof.
  intros world matches r t0 inv t1.
  assert (Hr : r.1 = t0 ++ inv :: t1) by (vm_compute; reflexivity).
  assert (Hi : removes inv) by reflexivity.
  split; [exact Hr|]. split; [exact Hi|].
  exact (temporary_files_stay_unless_docker_run_succeeds
           world matches ["README.md"] t0 inv t1 Hr Hi).
Defined.

(** X6.  What the file names become on their way to the container: the
    command of [docker run] is [bash -c ./run_linter.sh] followed by the
    fields of every argument, each globbed on the host; an argument with a
    blank arrives as several words, and an argument without blank or pattern
    character arrives as it is. *)
Theorem file_names_are_split_for_docker
    (world : list invocation -> invocation -> reply)
    (matches : string -> list string) (args : list string) :
  Forall (fun inv => runs_docker inv ->
            drop 9 (argv inv)
            = ["bash"; "-c"; "./run_linter.sh"] ++ (args ≫= unquoted matches))
    (run_lint_md world matches args).1 /\
  (Forall (fun a => Bash.plain a = true /\ a <> "") args ->
   args ≫= unquoted matches = args).
Proof.
  split.
  - assert (H : emits (fun inv => runs_docker inv ->
                          drop 9 (argv inv)
                          = ["bash"; "-c"; "./run_linter.sh"]
                            ++ (args ≫= unquoted matches))
                  (lint_md world matches args)).
    { unfold lint_md.
      repeat first
        [ apply emits_run
        | apply emits_substitute
        | apply emits_errexit
        | apply emits_bind; [|intros ?] ].
      all: intros Hrun; try discriminate Hrun.
      cbn [argv command drop app]. apply unquoted_CMD. }
    apply H. constructor.
  - induction 1 as [|a l [Hp Ha] _ IH]; [reflexivity|].
    by rewrite bind_cons, unquoted_plain, IH.
Qed.

(** A name with a blank is two words for [docker run], a plain one is
    one. *)
Example name_with_blank_is_split :
  let world := fun (_ : list invocation) (_ : invocation) =>
    {| exit_code := 0; output := "/src
" |} in
  drop 9 <$> (argv <$> (run_lint_md world (fun _ => [])
                          ["my notes.md"; "README.md"]).1 !! 9%nat)
  = Some ["bash"; "-c"; "./run_linter.sh"; "my"; "notes.md"; "README.md"].
Proof. vm_compute. reflexivity. Qed.

End LintMdRunProps.

(** ** The trading system report *)

Module TradingSystemReportProps.
Import TradingSystemReport.

Lemma last_item_snoc {A} (l : list A) (x : A) : last_item (l ++ [x]) = Return x.
Proof. unfold last_item. by rewrite last_snoc. Qed.

(** X15.  [get_balances] uses the balances of the latest run only: with no
    balances at all it raises [IndexError] and logs nothing; otherwise what
    it returns or raises is what it returns or raises for the last element
    alone, whatever stands before it, and it logs the line about multiple
    files exactly when something stands before it. *)
Theorem only_the_latest_balances_are_used
    (frame : Type) (DataFrame : json -> outcome frame)
    (select : frame -> list string -> outcome frame) :
  get_balances DataFrame select [] = ([], Raise IndexError) /\
  forall earlier latest,
    (get_balances DataFrame select (earlier ++ [latest])).2
    = (get_balances DataFrame select [latest]).2 /\
    (get_balances DataFrame select (earlier ++ [latest])).1
    = if decide (earlier = []) then [] else [multiple_files_found].
Proof.
  split; [reflexivity|]. intros earlier latest. split.
  - unfold get_balances. cbn [snd].
    rewrite last_item_snoc.
    by change [latest] with ([] ++ [latest]); rewrite last_item_snoc.
  - unfold get_balances. cbn [fst]. rewrite length_app. cbn [length].
    destruct earlier as [|b bs]; [reflexivity|].
    cbn [length]. rewrite bool_decide_eq_true_2 by lia.
    by destruct (decide _).
Qed.

End TradingSystemReportProps.
